(** * FeSEM round-2 client: a shallow embedding of [client.py]

    The federated-learning client of [src/FeSEM/Round-2/client.py] is
    embedded as executable Rocq definitions.  Python exceptions are an
    explicit [result]; the mutable client object, the shared Keras model and
    the calls made to external collaborators (Keras, flwr, imblearn, numpy)
    are threaded through a small state-and-exception monad.  Numeric values
    are numpy floats: a finite value is kept as an exact rational, next to
    the two infinities and NaN, so that the NaN/Inf tests of the source can
    be written down while arithmetic on finite values stays exact.  The
    learning-rate schedule, whose properties depend on the rounding of the
    arithmetic, is given on binary64 floats as well. *)

From stdpp Require Import base strings gmap list sorting.
From Stdlib Require Import ZArith QArith Lqa Lia Ascii Floats.

Open Scope Z_scope.

(** ** Numeric values *)

(** A numpy float. *)
Inductive fval : Type :=
| FNum (q : Q)
| FInf (negative : bool)
| FNaN.

(** [np.isnan] and [np.isinf] on one value. *)
Definition isnan (v : fval) : bool :=
  match v with FNaN => true | _ => false end.

Definition isinf (v : fval) : bool :=
  match v with FInf _ => true | _ => false end.

(** An ndarray, flattened; its shape is its length. *)
Abbreviation tensor := (list fval).
(** [model.get_weights()]: the ordered list of weight arrays. *)
Abbreviation WeightSet := (list (list fval)).
(** The feature matrix, one row per sample. *)
Abbreviation matrix := (list (list fval)).

(** [np.any(np.isnan(w))] and [np.any(np.isinf(w))] on an array. *)
Definition any_isnan (w : tensor) : bool := existsb isnan w.
Definition any_isinf (w : tensor) : bool := existsb isinf w.

(** ** Exceptions *)

(** The exception classes that occur, and the outcome of a call that may
    raise. *)
Inductive exn : Type :=
| ValueError (msg : string)
| KeyError
| IndexError
| OtherException (msg : string).

Inductive result (A : Type) : Type :=
| Ok (a : A)
| Raise (e : exn).
Arguments Ok {A} a.
Arguments Raise {A} e.

(** ** [lr_schedule] *)

Definition initial_lr : Q := 1 # 1000.
Definition decay : Q := 1 # 10.

(** [lr = initial_lr * (1.0 / (1.0 + decay * epoch))], in exact arithmetic. *)
Definition lr_schedule (epoch : nat) : Q :=
  (initial_lr * (1 / (1 + decay * inject_Z (Z.of_nat epoch))))%Q.

(** The same expression as the interpreter evaluates it, on binary64
    floats.  The two constants are the doubles written [0.001] and [0.1];
    [float_of_int] is the conversion Python applies to the [int] operand
    [epoch] of [decay * epoch] (to the nearest double, ties to even), for an
    epoch below 2^63. *)
Definition initial_lr_binary64 : float := 0x1.0624dd2f1a9fcp-10%float.
Definition decay_binary64 : float := 0x1.999999999999ap-4%float.
Definition float_of_int (n : Z) : float := PrimFloat.of_uint63 (Uint63.of_Z n).
Definition lr_schedule_binary64 (epoch : Z) : float :=
  (initial_lr_binary64 * (1.0 / (1.0 + decay_binary64 * float_of_int epoch)))%float.

(** What the schedule is compared with: the closed form
    [0.001 / (1 + 0.1 * epoch)] of the specification, once evaluated in
    binary64 and once as a rational number. *)
Definition closed_form_binary64 (epoch : Z) : float :=
  (initial_lr_binary64 / (1.0 + decay_binary64 * float_of_int epoch))%float.
Definition closed_form (epoch : Z) : Q :=
  ((1 # 1000) / (1 + (1 # 10) * inject_Z epoch))%Q.

(** The rational number a finite double stands for. *)
Definition float_to_Q (f : float) : option Q :=
  match Prim2SF f with
  | S754_zero _ => Some 0%Q
  | S754_finite s m e =>
      let n := if s then Z.neg m else Z.pos m in
      Some (match e with
            | Z0 => n # 1
            | Z.pos k => (n * 2 ^ Z.pos k) # 1
            | Z.neg k => n # (2 ^ k)
            end)
  | _ => None
  end.

(** [x] is [y] or one of the two doubles next to [y]. *)
Definition within_one_ulp (x y : float) : bool :=
  PrimFloat.eqb x y || PrimFloat.eqb x (next_up y) || PrimFloat.eqb x (next_down y).

(** [x] is [y] up to the relative error [tol]. *)
Definition within_relative (tol x y : Q) : Prop :=
  (y * (1 - tol) <= x /\ x <= y * (1 + tol))%Q.
Definition within_relativeb (tol x y : Q) : bool :=
  Qle_bool (y * (1 - tol)) x && Qle_bool x (y * (1 + tol)).

(** [p] on the [2 ^ height] integers from [start] on. *)
Fixpoint all_from (height : nat) (start : Z) (p : Z -> bool) : bool :=
  match height with
  | O => p start
  | S h => all_from h start p && all_from h (start + 2 ^ Z.of_nat h) p
  end.

(** At epoch [e] the schedule drops at the next epoch, is within one unit
    in the last place of the closed form in binary64, and within the
    relative error 2^-51 of the closed form as a number. *)
Definition epoch_ok (e : Z) : bool :=
  PrimFloat.ltb (lr_schedule_binary64 (e + 1)) (lr_schedule_binary64 e)
  && within_one_ulp (lr_schedule_binary64 e) (closed_form_binary64 e)
  && match float_to_Q (lr_schedule_binary64 e) with
     | Some x => within_relativeb (1 # 2 ^ 51) x (closed_form e)
     | None => false
     end.

(** ** Class weights *)

(** [np.unique(y, return_counts=True)]: the sorted distinct labels, each with
    its number of occurrences.  [count_label] files one more occurrence of
    [k] into a table sorted by label. *)
Fixpoint count_label (k : Z) (tbl : list (Z * nat)) : list (Z * nat) :=
  match tbl with
  | [] => [(k, 1%nat)]
  | (k', c) :: rest =>
      if k <? k' then (k, 1%nat) :: tbl
      else if k =? k' then (k', S c) :: rest
      else (k', c) :: count_label k rest
  end.

Definition np_unique (y : list Z) : list (Z * nat) :=
  foldr count_label [] y.

(** [total_samples / (num_classes * v)] *)
Definition inverse_frequency (total_samples num_classes v : nat) : Q :=
  (inject_Z (Z.of_nat total_samples)
   / (inject_Z (Z.of_nat num_classes) * inject_Z (Z.of_nat v)))%Q.

(** The dictionary [class_weights] of [fit] and [evaluate]:
    [{i: 1.0 for i in range(6)}] when the distribution is rejected,
    [{k: total_samples / (num_classes * v) for k, v in zip(unique, counts)}]
    otherwise. *)
Definition uniform_weights : gmap Z Q :=
  list_to_map (map (fun i => (Z.of_nat i, 1%Q)) (seq 0 6)).

Definition degenerate (uc : list (Z * nat)) : bool :=
  (length uc =? 0)%nat || existsb (fun c => (c =? 0)%nat) (map snd uc).

Definition class_weights (y : list Z) : gmap Z Q :=
  let uc := np_unique y in
  if degenerate uc then uniform_weights
  else
    let total_samples := length y in
    let num_classes := length uc in
    foldl (fun d kv => <[kv.1 := inverse_frequency total_samples num_classes kv.2]> d)
          ∅ uc.

(** [sample_weights = np.array([class_weights[label] for label in y])];
    a label missing from the dictionary is Python's [KeyError]. *)
Fixpoint lookup_all (d : gmap Z Q) (labels : list Z) : result (list Q) :=
  match labels with
  | [] => Ok []
  | label :: rest =>
      match d !! label with
      | None => Raise KeyError
      | Some w =>
          match lookup_all d rest with
          | Ok ws => Ok (w :: ws)
          | Raise e => Raise e
          end
      end
  end.

Definition sample_weights (y : list Z) : result (list Q) :=
  lookup_all (class_weights y) y.

(** The sums the class-weight property speaks of. *)
Definition Qsum (l : list Q) : Q := foldr Qplus 0%Q l.

Definition weighted_class_total (d : gmap Z Q) (uc : list (Z * nat)) : result Q :=
  match lookup_all d (map fst uc) with
  | Ok ws => Ok (Qsum (zip_with (fun w c => (w * inject_Z (Z.of_nat c))%Q) ws (map snd uc)))
  | Raise e => Raise e
  end.

(** ** The collaborators outside the file *)

(** What the coordinator hands to [fit] and [evaluate]: an
    [fl.common.Parameters] object (serialised arrays) or, as a
    [NumPyClient] gets them, a plain list of arrays. *)
Inductive py_parameters : Type :=
| Parameters (tensors : list string)
| NDArrays (arrays : WeightSet).

(** [history.history] of Keras: metric name to the per-epoch values. *)
Abbreviation History := (gmap string (list fval)).
(** [self.metrics_history]: metric name to (round, value) pairs. *)
Abbreviation MetricsHistory := (gmap string (list (nat * fval))).

(** One instruction of the coordinator to the registered client. *)
Inductive request : Type :=
| ReqGetParameters
| ReqFit (parameters : py_parameters)
| ReqEvaluate (parameters : py_parameters).

(** Library code the client calls: flwr's codec, the Keras model (whose
    state is its list of weight arrays), scikit-learn, numpy's [save],
    imblearn's SMOTE, the gRPC channel and the coordinator behind it.  Each
    is a function of what the call receives; a call that raises returns
    [Raise].  [model_set_weights] gives the weights of the model after an
    assignment that went through.  Of the model after an assignment that
    raised nothing is said below: the embedding leaves it as it was, where
    Keras may already have assigned some of the arrays. *)
Record Extern : Type := {
  ndarrays_to_parameters : WeightSet -> result (list string);
  parameters_to_ndarrays : list string -> result WeightSet;
  build_model : nat -> WeightSet;
  model_set_weights : WeightSet -> WeightSet -> result WeightSet;
  model_fit : WeightSet -> matrix -> list Z -> list Q -> WeightSet * result History;
  model_evaluate : WeightSet -> matrix -> list Z -> list Q -> result (list fval);
  model_predict_classes : WeightSet -> matrix -> result (list Z);
  f1_score : list Z -> list Z -> result fval;
  np_save : MetricsHistory -> result unit;
  smote_fit_resample : nat -> matrix -> list Z -> result (matrix * list Z);
  channel_ready : nat -> result unit;
  coordinator : nat -> list request
}.

(** ** Program state *)

(** The fields of a [FeSEMClient] object. *)
Record Client : Type := {
  round : nat;
  X_labeled : matrix;
  y_labeled : list Z;
  metrics_history : MetricsHistory
}.

(** Calls that leave the file or enter one of its functions, in the order
    they happen. *)
Inductive event : Type :=
| EvBalance
| EvSmote (k_neighbors : nat)
| EvBuildModel
| EvAttempt (attempt : nat)
| EvSleep (seconds : nat)
| EvChannelClose
| EvGetParameters
| EvFit (round_number : nat)
| EvEvaluate
| EvSetWeights
| EvCompile
| EvModelFit
| EvModelEvaluate
| EvSave.

Global Instance event_eq_dec : EqDecision event.
Proof. solve_decision. Defined.

(** [model] is the one Keras model of [run_client], shared by every client
    object; [self] is the client object; [calls] is the call record. *)
Record World : Type := {
  model : WeightSet;
  self : Client;
  calls : list event
}.

(** ** A state-and-exception monad

    A statement sequence of the source is a function from the state before
    to the state after and either a value or the exception raised.  State
    changes made before an exception stay. *)
Definition M (A : Type) : Type := World -> World * result A.

Definition ret {A} (a : A) : M A := fun w => (w, Ok a).
Definition raise {A} (e : exn) : M A := fun w => (w, Raise e).
Definition bind {A B} (m : M A) (k : A -> M B) : M B :=
  fun w => match m w with
           | (w', Ok a) => k a w'
           | (w', Raise e) => (w', Raise e)
           end.

Notation "x <- m ;; k" := (bind m (fun x => k))
  (at level 100, m at next level, right associativity).
Notation "m ;;; k" := (bind m (fun _ => k))
  (at level 100, right associativity).

(** [try: m except Exception as e: h e] *)
Definition try_except {A} (m : M A) (h : exn -> M A) : M A :=
  fun w => match m w with
           | (w', Ok a) => (w', Ok a)
           | (w', Raise e) => h e w'
           end.

Definition is_value_error (e : exn) : bool :=
  match e with ValueError _ => true | _ => false end.

(** [try: m except ValueError as e: h e] *)
Definition try_except_value_error {A} (m : M A) (h : exn -> M A) : M A :=
  fun w => match m w with
           | (w', Raise e) => if is_value_error e then h e w' else (w', Raise e)
           | r => r
           end.

Definition lift {A} (r : result A) : M A := fun w => (w, r).
(** The world with further calls on record. *)
Definition logged (w : World) (tr : list event) : World :=
  {| model := model w; self := self w; calls := calls w ++ tr |}.
Definition call (ev : event) : M unit := fun w => (logged w [ev], Ok tt).
Definition get_model : M WeightSet := fun w => (w, Ok (model w)).
Definition put_model (m : WeightSet) : M unit :=
  fun w => ({| model := m; self := self w; calls := calls w |}, Ok tt).
Definition get_self : M Client := fun w => (w, Ok (self w)).
Definition put_self (c : Client) : M unit :=
  fun w => ({| model := model w; self := c; calls := calls w |}, Ok tt).

Global Instance Q_eq_dec : EqDecision Q.
Proof. solve_decision. Defined.
Global Instance fval_eq_dec : EqDecision fval.
Proof. solve_decision. Defined.

Section Program.

Context (E : Extern).

(** ** [balance_data_with_smote] *)

(** [pd.Series(y).value_counts()]: one count per distinct label.  pandas
    orders the series by count; only its minimum is used. *)
Definition value_counts (y : list Z) : list (Z * nat) := np_unique y.

(** [class_dist.min()], which is NaN ([None]) on an empty series. *)
Definition series_min (cs : list nat) : option nat :=
  match cs with
  | [] => None
  | c :: rest => Some (foldr Nat.min c rest)
  end.

(** [min_samples < 2]: false when [min_samples] is NaN. *)
Definition lt_two (min_samples : option nat) : bool :=
  match min_samples with
  | Some m => (m <? 2)%nat
  | None => false
  end.

(** [min(3, min_samples - 1)]: Python's [min] keeps 3 against NaN. *)
Definition choose_k_neighbors (min_samples : option nat) : nat :=
  match min_samples with
  | Some m => Nat.min 3 (m - 1)
  | None => 3%nat
  end.

Definition balance_data_with_smote (X : matrix) (y : list Z) : M (matrix * list Z) :=
  call EvBalance ;;;
  let class_dist := value_counts y in
  let min_samples := series_min (map snd class_dist) in
  if lt_two min_samples then ret (X, y)
  else
    let k_neighbors := choose_k_neighbors min_samples in
    try_except
      (call (EvSmote k_neighbors) ;;;
       lift (smote_fit_resample E k_neighbors X y))
      (fun _ => ret (X, y)).

(** ** [FeSEMClient] *)

Definition FeSEMClient_init (X_labeled : matrix) (y_labeled : list Z) : Client :=
  {| round := 0;
     X_labeled := X_labeled;
     y_labeled := y_labeled;
     metrics_history :=
       {[ "loss" := []; "accuracy" := []; "f1_score" := [] ]} |}.

Definition get_parameters : M WeightSet :=
  call EvGetParameters ;;;
  weights <- get_model ;;
  if existsb any_isnan weights
  then raise (ValueError "Model weights contain NaN values.")
  else ret weights.

(** The opening of [fit] and of [evaluate] (the same statements in both):
    convert what was received to a [Parameters] object unless it is one,
    decode it, and hand the arrays to [model.set_weights]. *)
Definition receive_parameters (parameters : py_parameters) : M unit :=
  p <- match parameters with
       | Parameters tensors => ret tensors
       | NDArrays arrays =>
           try_except (lift (ndarrays_to_parameters E arrays)) (fun e => raise e)
       end ;;
  global_weights <- lift (parameters_to_ndarrays E p) ;;
  try_except_value_error
    (call EvSetWeights ;;;
     m <- get_model ;;
     m' <- lift (model_set_weights E m global_weights) ;;
     put_model m')
    (fun e => raise e).

(** [history.history[key][-1]] *)
Definition history_last (h : History) (key : string) : result fval :=
  match h !! key with
  | None => Raise KeyError
  | Some l =>
      match last l with
      | Some v => Ok v
      | None => Raise IndexError
      end
  end.

(** [not history.history or 'loss' not in history.history] *)
Definition history_invalid (h : History) : bool :=
  bool_decide (h = ∅) || negb (bool_decide (is_Some (h !! "loss"))).

(** [any(np.isnan(history.history['loss']))] *)
Definition loss_has_nan (h : History) : bool :=
  existsb isnan (default [] (h !! "loss")).

Definition fit (parameters : py_parameters)
  : M (WeightSet * nat * gmap string fval) :=
  c <- get_self ;;
  put_self {| round := S (round c); X_labeled := X_labeled c;
              y_labeled := y_labeled c;
              metrics_history := metrics_history c |} ;;;
  call (EvFit (S (round c))) ;;;
  receive_parameters parameters ;;;
  sample_weights <- lift (sample_weights (y_labeled c)) ;;
  call EvCompile ;;;
  call EvModelFit ;;;
  m <- get_model ;;
  let trained := model_fit E m (X_labeled c) (y_labeled c) sample_weights in
  put_model trained.1 ;;;
  history <- lift trained.2 ;;
  weights <- get_model ;;
  if history_invalid history then
    ret (weights, length (X_labeled c), {[ "loss" := FNum 0 ]})
  else if loss_has_nan history then
    ret (weights, length (X_labeled c), {[ "loss" := FNum 0 ]})
  else
    final_loss <- lift (history_last history "loss") ;;
    _ <- lift (history_last history "accuracy") ;;
    ret (weights, length (X_labeled c), {[ "loss" := final_loss ]}).

(** [loss, unweighted_acc, weighted_acc = evaluation_results] *)
Definition unpack3 (l : list fval) : result (fval * fval * fval) :=
  match l with
  | [a; b; c] => Ok (a, b, c)
  | _ => Raise (ValueError "wrong number of values to unpack")
  end.

(** The loop that fills [class_acc]: for each label of [range(6)] present
    in [y], the share of its samples predicted right.  Indexing the
    predictions with a mask of another length is an [IndexError]. *)
Definition masked {A} (mask : list bool) (l : list A) : list A :=
  map snd (filter (fun p => p.1 = true) (zip mask l)).

Definition accuracy_score (y_true y_pred : list Z) : Q :=
  (inject_Z (Z.of_nat (length (filter (fun p => p.1 = p.2) (zip y_true y_pred))))
   / inject_Z (Z.of_nat (length y_true)))%Q.

Definition class_wise_accuracy (y y_pred_classes : list Z) : result (gmap Z Q) :=
  foldl (fun acc label =>
           match acc with
           | Raise e => Raise e
           | Ok class_acc =>
               let mask := map (Z.eqb label) y in
               if (0 <? length (filter (fun b => b = true) mask))%nat then
                 if (length y_pred_classes =? length mask)%nat then
                   Ok (<[label := accuracy_score (masked mask y)
                                    (masked mask y_pred_classes)]> class_acc)
                 else Raise IndexError
               else Ok class_acc
           end)
        (Ok ∅) (map Z.of_nat (seq 0 6)).

(** The body of the [try] of [evaluate]; it yields the three values the
    code after the [try] uses. *)
Definition evaluation_block (c : Client) (sample_weights : list Q)
  : M (fval * fval * fval) :=
  call EvModelEvaluate ;;;
  m <- get_model ;;
  evaluation_results <-
    lift (model_evaluate E m (X_labeled c) (y_labeled c) sample_weights) ;;
  r <- lift (unpack3 evaluation_results) ;;
  let '(loss, unweighted_acc, weighted_acc) := r in
  y_pred_classes <- lift (model_predict_classes E m (X_labeled c)) ;;
  f1 <- lift (f1_score E (y_labeled c) y_pred_classes) ;;
  _ <- lift (class_wise_accuracy (y_labeled c) y_pred_classes) ;;
  ret (loss, weighted_acc, f1).

(** [self.metrics_history[key].append((self.round, value))] *)
Definition append_metric (key : string) (value : fval) : M unit :=
  c <- get_self ;;
  match metrics_history c !! key with
  | None => raise KeyError
  | Some series =>
      put_self {| round := round c; X_labeled := X_labeled c;
                  y_labeled := y_labeled c;
                  metrics_history :=
                    <[key := series ++ [(round c, value)]]> (metrics_history c) |}
  end.

(** The value returned on both fallback paths of [evaluate]. *)
Definition zero_metrics : fval * nat * gmap string fval :=
  (FNum 0, 0%nat, {[ "accuracy" := FNum 0; "f1_score" := FNum 0 ]}).

Definition evaluate (parameters : py_parameters)
  : M (fval * nat * gmap string fval) :=
  call EvEvaluate ;;;
  receive_parameters parameters ;;;
  c <- get_self ;;
  sample_weights <- lift (sample_weights (y_labeled c)) ;;
  call EvCompile ;;;
  if (length (X_labeled c) =? 0)%nat || (length (y_labeled c) =? 0)%nat
  then ret zero_metrics
  else
    outcome <- try_except
                 (r <- evaluation_block c sample_weights ;; ret (Some r))
                 (fun _ => ret None) ;;
    match outcome with
    | None => ret zero_metrics
    | Some (loss, weighted_acc, f1) =>
        append_metric "loss" loss ;;;
        append_metric "accuracy" weighted_acc ;;;
        append_metric "f1_score" f1 ;;;
        call EvSave ;;;
        c' <- get_self ;;
        lift (np_save E (metrics_history c')) ;;;
        ret (loss, length (X_labeled c),
             {[ "accuracy" := weighted_acc; "f1_score" := f1 ]})
    end.

(** ** [run_client] *)

(** The session [fl.client.start_numpy_client] runs: the coordinator's
    requests are answered in order by the three methods of the client
    object; an exception leaving a method leaves the session. *)
Definition handle (r : request) : M unit :=
  match r with
  | ReqGetParameters => _ <- get_parameters ;; ret tt
  | ReqFit parameters => _ <- fit parameters ;; ret tt
  | ReqEvaluate parameters => _ <- evaluate parameters ;; ret tt
  end.

Fixpoint serve (requests : list request) : M unit :=
  match requests with
  | [] => ret tt
  | r :: rest => handle r ;;; serve rest
  end.

Definition start_numpy_client (attempt : nat) (client : Client) : M unit :=
  put_self client ;;;
  serve (coordinator E attempt).

Definition max_retries : nat := 10.
Definition retry_delay : nat := 10.

(** The [for attempt in range(max_retries)] loop.  The [try] body ends in
    [break]; the handler sleeps and lets the loop go on, or re-raises on
    the last attempt. *)
Fixpoint connect_loop (X_labeled : matrix) (y_labeled : list Z)
    (attempts : list nat) : M unit :=
  match attempts with
  | [] => ret tt
  | attempt :: rest =>
      stop <- try_except
                (call (EvAttempt attempt) ;;;
                 lift (channel_ready E attempt) ;;;
                 start_numpy_client attempt (FeSEMClient_init X_labeled y_labeled) ;;;
                 call EvChannelClose ;;;
                 ret true)
                (fun e =>
                   if (attempt <? max_retries - 1)%nat
                   then call (EvSleep retry_delay) ;;; ret false
                   else raise e) ;;
      if stop then ret tt else connect_loop X_labeled y_labeled rest
  end.

(** Number of entries of the array, for [np.min] and [np.max], and
    [X_dev.shape[1]]. *)
Definition array_size (X : matrix) : nat := length (concat X).
Definition input_dim (X : matrix) : nat :=
  match X with
  | [] => 0%nat
  | row :: _ => length row
  end.

(** The labels are integers, so the NaN/Inf test the source also makes on
    [y_dev] cannot fire and has no counterpart here. *)
Definition run_client (X_dev : matrix) (y_dev : list Z) : M unit :=
  balanced <- balance_data_with_smote X_dev y_dev ;;
  let '(X_dev, y_dev) := balanced in
  (if (array_size X_dev =? 0)%nat
   then raise (ValueError "zero-size array to reduction operation minimum")
   else ret tt) ;;;
  (if existsb any_isnan X_dev || existsb any_isinf X_dev
   then raise (ValueError "Input data X_dev contains NaN or Inf values.")
   else ret tt) ;;;
  call EvBuildModel ;;;
  put_model (build_model E (input_dim X_dev)) ;;;
  connect_loop X_dev y_dev (seq 0 max_retries).

(** ** Notions the properties are stated with *)

(** The arrays [receive_parameters] hands to the model, as a function of
    what was received. *)
Definition received_weights (parameters : py_parameters) : result WeightSet :=
  match parameters with
  | Parameters tensors => parameters_to_ndarrays E tensors
  | NDArrays arrays =>
      match ndarrays_to_parameters E arrays with
      | Ok tensors => parameters_to_ndarrays E tensors
      | Raise e => Raise e
      end
  end.

End Program.

(** A computation [respects] a relation between worlds when the world it
    leaves is related to the world it found. *)
Definition respects {A} (R : World -> World -> Prop) (m : M A) : Prop :=
  forall w, R w (m w).1.

(** The three series of the metrics history are present and of one length. *)
Definition aligned (mh : MetricsHistory) : Prop :=
  exists l a f,
    mh !! "loss" = Some l /\ mh !! "accuracy" = Some a /\ mh !! "f1_score" = Some f
    /\ length l = length a /\ length a = length f.

(** The metrics history after one successful evaluation. *)
Definition recorded (mh : MetricsHistory) (r : nat) (loss acc f1 : fval)
    (l a f : list (nat * fval)) : MetricsHistory :=
  <["f1_score" := f ++ [(r, f1)]]>
    (<["accuracy" := a ++ [(r, acc)]]> (<["loss" := l ++ [(r, loss)]]> mh)).

(** Events of the class balancer, of the retry loop, and of [fit]. *)
Definition is_balancing (ev : event) : bool :=
  match ev with
  | EvBalance | EvSmote _ => true
  | _ => false
  end.

Definition is_balance_call (ev : event) : bool :=
  match ev with
  | EvBalance => true
  | _ => false
  end.

Definition is_fit_call (ev : event) : bool :=
  match ev with
  | EvFit _ => true
  | _ => false
  end.

Definition is_attempt (ev : event) : bool :=
  match ev with
  | EvAttempt _ => true
  | _ => false
  end.

Definition is_sleep (ev : event) : bool :=
  match ev with
  | EvSleep _ => true
  | _ => false
  end.

Definition is_fit_request (r : request) : bool :=
  match r with
  | ReqFit _ => true
  | _ => false
  end.

Definition count_fits (requests : list request) : nat :=
  length (List.filter is_fit_request requests).

Definition count_events (p : event -> bool) (tr : list event) : nat :=
  length (List.filter p tr).

(** The call record of a client that never gets through: ten attempts,
    a sleep of [retry_delay] between one and the next. *)
Definition never_ready_calls : list event :=
  flat_map (fun attempt => [EvAttempt attempt; EvSleep retry_delay]) (seq 0 9)
  ++ [EvAttempt 9].

(** Relations between the world before and the world after. *)
Definition same_self (w w' : World) : Prop := self w' = self w.
Definition same_round (w w' : World) : Prop := round (self w') = round (self w).
Definition same_data (w w' : World) : Prop :=
  X_labeled (self w') = X_labeled (self w) /\ y_labeled (self w') = y_labeled (self w).
Definition same_metrics (w w' : World) : Prop :=
  metrics_history (self w') = metrics_history (self w).
Definition keeps_aligned (w w' : World) : Prop :=
  aligned (metrics_history (self w)) -> aligned (metrics_history (self w')).
Definition no_balancing (w w' : World) : Prop :=
  exists tr, calls w' = calls w ++ tr /\ forallb (fun ev => negb (is_balancing ev)) tr = true.

(** Between two worlds: the client object is the same, or it holds the
    dataset [X], [y]. *)
Definition holds_dataset (X : matrix) (y : list Z) (w w' : World) : Prop :=
  self w' = self w \/ (X_labeled (self w') = X /\ y_labeled (self w') = y).

(** ** A laboratory instance of the collaborators

    A small stand-in for the libraries, used to run the client on concrete
    inputs: a codec that writes one character per array entry, a model that
    accepts weights of its own shape, reports a NaN loss when its weights
    hold NaN, and predicts class 0 throughout. *)
Module Lab.

Fixpoint collect {A} (l : list (result A)) : result (list A) :=
  match l with
  | [] => Ok []
  | Raise e :: _ => Raise e
  | Ok a :: rest =>
      match collect rest with
      | Ok l' => Ok (a :: l')
      | Raise e => Raise e
      end
  end.

Definition encode_entry (v : fval) : result ascii :=
  match v with
  | FNaN => Ok "n"%char
  | FInf false => Ok "p"%char
  | FInf true => Ok "m"%char
  | FNum (Qmake (Z0) 1) => Ok "0"%char
  | FNum (Qmake (Zpos n) 1) =>
      if (n <=? 9)%positive then Ok (ascii_of_nat (48 + Pos.to_nat n))
      else Raise (ValueError "entry not representable")
  | FNum _ => Raise (ValueError "entry not representable")
  end.

Definition decode_entry (ch : ascii) : result fval :=
  if Ascii.eqb ch "n" then Ok FNaN
  else if Ascii.eqb ch "p" then Ok (FInf false)
  else if Ascii.eqb ch "m" then Ok (FInf true)
  else
    let code := nat_of_ascii ch in
    if (48 <=? code)%nat && (code <=? 57)%nat
    then Ok (FNum (inject_Z (Z.of_nat (code - 48))))
    else Raise (ValueError "cannot decode entry").

Definition encode (arrays : WeightSet) : result (list string) :=
  collect (map (fun t => match collect (map encode_entry t) with
                         | Ok chars => Ok (String.string_of_list_ascii chars)
                         | Raise e => Raise e
                         end) arrays).

Definition decode (tensors : list string) : result WeightSet :=
  collect (map (fun s => collect (map decode_entry (String.list_ascii_of_string s))) tensors).

Definition has_nan (m : WeightSet) : bool := existsb any_isnan m.

(** What varies from one experiment to the next. *)
Record Setup : Type := {
  ready : nat -> bool;
  script : nat -> list request;
  smote_result : result (matrix * list Z);
  evaluate_raises : bool;
  save_result : result unit
}.

Definition extern (s : Setup) : Extern :=
  {| ndarrays_to_parameters := encode;
     parameters_to_ndarrays := decode;
     build_model := fun input_dim => [replicate input_dim (FNum 0); [FNum 0]];
     model_set_weights := fun m ws =>
       if bool_decide (map length ws = map length m) then Ok ws
       else Raise (ValueError "weights do not match the model");
     model_fit := fun m X y sample_weights =>
       (m, Ok {[ "loss" := [if has_nan m then FNaN else FNum (1 # 2)];
                 "accuracy" := [FNum 1] ]});
     model_evaluate := fun m X y sample_weights =>
       if evaluate_raises s then Raise (OtherException "evaluation failed")
       else if has_nan m then Ok [FNaN; FNaN; FNaN]
       else Ok [FNum (1 # 2); FNum 1; FNum 1];
     model_predict_classes := fun m X => Ok (map (fun _ => 0) X);
     f1_score := fun y_true y_pred =>
       if (length y_true =? length y_pred)%nat then Ok (FNum 1)
       else Raise (ValueError "inconsistent numbers of samples");
     np_save := fun _ => save_result s;
     smote_fit_resample := fun k X y => smote_result s;
     channel_ready := fun attempt =>
       if ready s attempt then Ok tt
       else Raise (OtherException "FutureTimeoutError");
     coordinator := script s |}.

(** A client object freshly built on a dataset, next to a model of two
    weight arrays, with nothing called yet. *)
Definition world (m : WeightSet) (X : matrix) (y : list Z) : World :=
  {| model := m; self := FeSEMClient_init X y; calls := [] |}.

Definition quiet : Setup :=
  {| ready := fun _ => true;
     script := fun _ => [];
     smote_result := Raise (OtherException "SMOTE failed");
     evaluate_raises := false;
     save_result := Ok tt |}.

Definition features : matrix :=
  [[FNum 1; FNum 0]; [FNum 0; FNum 1]; [FNum 1; FNum 1]; [FNum 0; FNum 0]].
Definition labels : list Z := [0; 0; 0; 1].
Definition start_weights : WeightSet := [[FNum 0; FNum 0]; [FNum 0]].
Definition nan_weights : WeightSet := [[FNum 1; FNaN]; [FNum 0]].
Definition inf_weights : WeightSet := [[FNum 1; FInf false]; [FNum 0]].
Definition ill_shaped_weights : WeightSet := [[FNum 1]].
Definition scenario_labels : list Z := [0; 0; 0; 0; 0; 1].

(** A coordinator that cannot be reached. *)
Definition offline : Setup :=
  {| ready := fun _ => false;
     script := fun _ => [];
     smote_result := Raise (OtherException "SMOTE failed");
     evaluate_raises := false;
     save_result := Ok tt |}.

(** A dataset with two samples in its smaller class, what the oversampling
    makes of it, and a coordinator that asks for two rounds of training
    with an evaluation in between. *)
Definition features5 : matrix := features ++ [[FNum 1; FNum 0]].
Definition labels5 : list Z := labels ++ [1].
Definition features6 : matrix := features5 ++ [[FNum 1; FNum 0]].
Definition labels6 : list Z := labels5 ++ [1].

Definition session : Setup :=
  {| ready := fun _ => true;
     script := fun _ => [ReqFit (NDArrays start_weights);
                         ReqEvaluate (NDArrays start_weights);
                         ReqFit (NDArrays start_weights)];
     smote_result := Ok (features6, labels6);
     evaluate_raises := false;
     save_result := Ok tt |}.

(** A metrics file that cannot be written. *)
Definition unwritable : Setup :=
  {| ready := fun _ => true;
     script := fun _ => [];
     smote_result := Raise (OtherException "SMOTE failed");
     evaluate_raises := false;
     save_result := Raise (OtherException "FileNotFoundError") |}.

(** A model whose evaluation raises. *)
Definition failing_evaluation : Setup :=
  {| ready := fun _ => true;
     script := fun _ => [];
     smote_result := Raise (OtherException "SMOTE failed");
     evaluate_raises := true;
     save_result := Ok tt |}.

End Lab.

(** ** Further notions, for the properties at the end *)

(** The sum over the classes of [f label * count]. *)
Definition class_sum (f : Z -> Q) (uc : list (Z * nat)) : Q :=
  Qsum (map (fun kc => (f kc.1 * inject_Z (Z.of_nat kc.2))%Q) uc).

(** The client object once [fit] has counted the round. *)
Definition next_round (c : Client) : Client :=
  {| round := S (round c); X_labeled := X_labeled c; y_labeled := y_labeled c;
     metrics_history := metrics_history c |}.

(** What the guarded block computes, call by call. *)
Definition block_result (E : Extern) (m : WeightSet) (c : Client) (sw : list Q)
  : result (fval * fval * fval) :=
  match model_evaluate E m (X_labeled c) (y_labeled c) sw with
  | Raise e => Raise e
  | Ok evaluation_results =>
      match unpack3 evaluation_results with
      | Raise e => Raise e
      | Ok (loss, _, weighted_acc) =>
          match model_predict_classes E m (X_labeled c) with
          | Raise e => Raise e
          | Ok y_pred_classes =>
              match f1_score E (y_labeled c) y_pred_classes with
              | Raise e => Raise e
              | Ok f1 =>
                  match class_wise_accuracy (y_labeled c) y_pred_classes with
                  | Raise e => Raise e
                  | Ok _ => Ok (loss, weighted_acc, f1)
                  end
              end
          end
      end
  end.

(** The model holds the same weights before and after. *)
Definition same_model (w w' : World) : Prop := model w' = model w.

(** Every series of the history after is a series of the history before
    with records added at its end. *)
Definition extends_metrics (w w' : World) : Prop :=
  forall key series,
    metrics_history (self w) !! key = Some series ->
    exists added, metrics_history (self w') !! key = Some (series ++ added).

(** The three series carry the same rounds, in non-decreasing order, none
    above the round counter. *)
Definition indexed_by_round (c : Client) : Prop :=
  exists l a f,
    metrics_history c !! "loss" = Some l
    /\ metrics_history c !! "accuracy" = Some a
    /\ metrics_history c !! "f1_score" = Some f
    /\ map fst a = map fst l /\ map fst f = map fst l
    /\ StronglySorted le (map fst l)
    /\ Forall (fun r => (r <= round c)%nat) (map fst l).

Definition keeps_indexed (w w' : World) : Prop :=
  indexed_by_round (self w) -> indexed_by_round (self w').

(** The call record of [n] failed attempts from [start] on, each followed
    by its sleep. *)
Definition retry_calls (start n : nat) : list event :=
  flat_map (fun attempt => [EvAttempt attempt; EvSleep retry_delay]) (seq start n).

(** ** The [__main__] block: the device's share of the rows *)

(** A row of the table: the scaled features, [Failure_Code], and the
    [Type] column. *)
Record sample : Type := {
  features_of : list fval;
  failure_code : Z;
  device_type : string
}.

(** [astype("category")]: the distinct values of the column, which pandas
    keeps in sorted order, and [.cat.codes]: the position of each value
    among them. *)
Fixpoint add_category (v : string) (cats : list string) : list string :=
  match cats with
  | [] => [v]
  | c :: rest =>
      match String.compare v c with
      | Lt => v :: cats
      | Eq => cats
      | Gt => c :: add_category v rest
      end
  end.

Definition categories (col : list string) : list string :=
  foldr add_category [] col.

Fixpoint category_code (cats : list string) (v : string) : Z :=
  match cats with
  | [] => -1
  | c :: rest =>
      if String.eqb v c then 0
      else let code := category_code rest v in
           if code <? 0 then -1 else 1 + code
  end.

(** [device_map = {'L': 0, 'M': 1, 'H': 2}] *)
Definition device_map : gmap string Z := {[ "L" := 0; "M" := 1; "H" := 2 ]}.

(** [X_dev] and [y_dev]: the training rows whose [Device_Type] code, taken
    over the whole table [df], is [device_map[device]]. *)
Definition device_rows (device : string) (df train : list sample)
  : result (matrix * list Z) :=
  match device_map !! device with
  | None => Raise KeyError
  | Some device_code =>
      let cats := categories (map device_type df) in
      let mask := map (fun s => category_code cats (device_type s) =? device_code)
                      train in
      Ok (map features_of (masked mask train), map failure_code (masked mask train))
  end.

(** The rows of one type. *)
Definition of_type (t : string) (rows : list sample) : list sample :=
  List.filter (fun s => String.eqb (device_type s) t) rows.

Definition hlm (t : string) : Prop := t = "H" \/ t = "L" \/ t = "M".

Definition cats_of (h l m : bool) : list string :=
  (if h then ["H"] else []) ++ (if l then ["L"] else []) ++ (if m then ["M"] else []).

Definition occurs (t : string) (col : list string) : bool :=
  existsb (String.eqb t) col.

(** One turn of the loop over [range(6)]. *)
Definition class_acc_step (y y_pred_classes : list Z)
    (acc : result (gmap Z Q)) (label : Z) : result (gmap Z Q) :=
  match acc with
  | Raise e => Raise e
  | Ok class_acc =>
      let mask := map (Z.eqb label) y in
      if (0 <? length (filter (fun b => b = true) mask))%nat then
        if (length y_pred_classes =? length mask)%nat then
          Ok (<[label := accuracy_score (masked mask y)
                           (masked mask y_pred_classes)]> class_acc)
        else Raise IndexError
      else Ok class_acc
  end.

(** ** Further laboratory material *)
Module Bench.

(** The laboratory libraries with a training that raises. *)
Definition failing_training : Extern :=
  let base := Lab.extern Lab.quiet in
  {| ndarrays_to_parameters := ndarrays_to_parameters base;
     parameters_to_ndarrays := parameters_to_ndarrays base;
     build_model := build_model base;
     model_set_weights := model_set_weights base;
     model_fit := fun m X y sample_weights =>
       (m, Raise (OtherException "training failed"));
     model_evaluate := model_evaluate base;
     model_predict_classes := model_predict_classes base;
     f1_score := f1_score base;
     np_save := np_save base;
     smote_fit_resample := smote_fit_resample base;
     channel_ready := channel_ready base;
     coordinator := coordinator base |}.

(** A coordinator that is reached at the third attempt. *)
Definition late : Lab.Setup :=
  {| Lab.ready := fun attempt => (2 <=? attempt)%nat;
     Lab.script := Lab.script Lab.session;
     Lab.smote_result := Lab.smote_result Lab.session;
     Lab.evaluate_raises := false;
     Lab.save_result := Ok tt |}.

(** The laboratory libraries with another training in place of theirs. *)
Definition with_training
    (training : WeightSet -> matrix -> list Z -> list Q -> WeightSet * result History)
    : Extern :=
  let base := Lab.extern Lab.quiet in
  {| ndarrays_to_parameters := ndarrays_to_parameters base;
     parameters_to_ndarrays := parameters_to_ndarrays base;
     build_model := build_model base;
     model_set_weights := model_set_weights base;
     model_fit := training;
     model_evaluate := model_evaluate base;
     model_predict_classes := model_predict_classes base;
     f1_score := f1_score base;
     np_save := np_save base;
     smote_fit_resample := smote_fit_resample base;
     channel_ready := channel_ready base;
     coordinator := coordinator base |}.

(** A training that diverges: it leaves NaN in every weight and reports a
    NaN loss. *)
Definition diverging_training : Extern :=
  with_training (fun m X y sample_weights =>
    (map (map (fun _ => FNaN)) m,
     Ok {[ "loss" := [FNaN]; "accuracy" := [FNum 0] ]})).

(** A training that reports series without an entry. *)
Definition silent_training : Extern :=
  with_training (fun m X y sample_weights =>
    (m, Ok {[ "loss" := []; "accuracy" := [] ]})).

Definition w0 : World := Lab.world Lab.start_weights Lab.features Lab.labels.

(** A client whose model holds other weights than the coordinator sends,
    and the weights a diverging training leaves. *)
Definition earlier_weights : WeightSet := [[FNum 1; FNum 1]; [FNum 1]].
Definition w1 : World := Lab.world earlier_weights Lab.features Lab.labels.
Definition diverged_weights : WeightSet := [[FNaN; FNaN]; [FNaN]].
Definition lab_sample_weights : list Q := [4 # 6; 4 # 6; 4 # 6; 4 # 2]%Q.
Definition nan_features : matrix := [[FNum 1; FNaN]; [FNum 0; FNum 1]].

(** A table with the three device types. *)
Definition table : list sample :=
  [ {| features_of := [FNum 1]; failure_code := 0; device_type := "M" |};
    {| features_of := [FNum 2]; failure_code := 1; device_type := "L" |};
    {| features_of := [FNum 3]; failure_code := 0; device_type := "H" |};
    {| features_of := [FNum 4]; failure_code := 2; device_type := "L" |} ].

End Bench.

(** * Properties *)

(** ** The learning-rate schedule *)

Lemma lr_den_pos (e : nat) : (0 < 1 + decay * inject_Z (Z.of_nat e))%Q.
Proof.
  assert (0 <= inject_Z (Z.of_nat e))%Q.
  { change 0%Q with (inject_Z 0). rewrite <- Zle_Qle. lia. }
  unfold decay. lra.
Qed.

Lemma lr_closed (e : nat) :
  (lr_schedule e == (1 # 1000) / (1 + (1 # 10) * inject_Z (Z.of_nat e)))%Q.
Proof.
  unfold lr_schedule, initial_lr, decay.
  pose proof (lr_den_pos e) as H. unfold decay in H.
  field. lra.
Qed.

Lemma lr_lt (e1 e2 : nat) : (e1 < e2)%nat -> (lr_schedule e2 < lr_schedule e1)%Q.
Proof.
  intros H. rewrite !lr_closed.
  pose proof (lr_den_pos e1) as H1. pose proof (lr_den_pos e2) as H2. unfold decay in *.
  assert (inject_Z (Z.of_nat e1) < inject_Z (Z.of_nat e2))%Q as Hlt.
  { rewrite <- Zlt_Qlt. lia. }
  set (d1 := (1 + (1 # 10) * inject_Z (Z.of_nat e1))%Q) in *.
  set (d2 := (1 + (1 # 10) * inject_Z (Z.of_nat e2))%Q) in *.
  assert (d1 < d2)%Q as Hd by (unfold d1, d2; lra).
  apply (Qlt_shift_div_l ((1 # 1000) / d2) (1 # 1000) d1); [exact H1|].
  assert ((1 # 1000) / d2 * d1 == (1 # 1000) * d1 / d2)%Q as -> by (field; lra).
  apply (Qlt_shift_div_r ((1 # 1000) * d1) d2 (1 # 1000)); [exact H2|]. lra.
Qed.

(** In exact arithmetic the schedule starts at 0.001, follows
    0.001 / (1 + 0.1 e) at every epoch index e, and is strictly decreasing
    in e. *)
Lemma lr_schedule_exact :
  (lr_schedule 0 == 1 # 1000)%Q
  /\ (forall e : nat,
        (lr_schedule e == (1 # 1000) / (1 + (1 # 10) * inject_Z (Z.of_nat e)))%Q)
  /\ (forall e1 e2 : nat, (e1 < e2)%nat -> (lr_schedule e2 < lr_schedule e1)%Q).
Proof.
  split; [reflexivity|]. split; [apply lr_closed|apply lr_lt].
Qed.

(** *** The schedule in binary64 *)

Lemma all_from_spec h : forall start p,
  all_from h start p = true ->
  forall e, start <= e < start + 2 ^ Z.of_nat h -> p e = true.
Proof.
  induction h as [|h IH]; intros start p H e He.
  - simpl in *. by replace e with start by lia.
  - cbn [all_from] in H. apply andb_true_iff in H as [H1 H2].
    rewrite Nat2Z.inj_succ, Z.pow_succ_r in He by lia.
    destruct (Z_lt_ge_dec e (start + 2 ^ Z.of_nat h)).
    + apply (IH start p H1). lia.
    + apply (IH _ p H2). lia.
Qed.

Lemma SFltb_trans x y z : SFltb x y = true -> SFltb y z = true -> SFltb x z = true.
Proof.
  unfold SFltb, SFcompare.
  destruct x as [sx|sx| |sx mx ex], y as [sy|sy| |sy my ey], z as [sz|sz| |sz mz ez];
    try destruct sx; try destruct sy; try destruct sz; try done.
  all: destruct (Z.compare_spec ex ey), (Z.compare_spec ey ez), (Z.compare_spec ex ez);
    try done; try lia.
  all: change (Pos.compare_cont Eq mx my) with (mx ?= my)%positive;
    change (Pos.compare_cont Eq my mz) with (my ?= mz)%positive;
    change (Pos.compare_cont Eq mx mz) with (mx ?= mz)%positive.
  all: destruct (Pos.compare_spec mx my), (Pos.compare_spec my mz),
         (Pos.compare_spec mx mz); simpl; try done; lia.
Qed.

Lemma ltb_trans (x y z : float) :
  PrimFloat.ltb x y = true -> PrimFloat.ltb y z = true -> PrimFloat.ltb x z = true.
Proof. rewrite !ltb_spec. apply SFltb_trans. Qed.

Lemma epochs_ok : all_from 12 0 epoch_ok = true.
Proof. vm_compute. reflexivity. Qed.

Lemma epoch_ok_range e : 0 <= e < 4096 -> epoch_ok e = true.
Proof. intros He. apply (all_from_spec 12 0 epoch_ok epochs_ok). simpl. lia. Qed.

Lemma lr_binary64_lt e1 e2 :
  0 <= e1 < e2 -> e2 <= 4096 ->
  PrimFloat.ltb (lr_schedule_binary64 e2) (lr_schedule_binary64 e1) = true.
Proof.
  intros H1 H2.
  assert (forall k : nat, e1 + 1 + Z.of_nat k <= 4096 ->
            PrimFloat.ltb (lr_schedule_binary64 (e1 + 1 + Z.of_nat k))
              (lr_schedule_binary64 e1) = true) as Hk.
  { induction k as [|k IH]; intros Hle.
    - replace (e1 + 1 + Z.of_nat 0) with (e1 + 1) by lia.
      pose proof (epoch_ok_range e1 ltac:(lia)) as H. unfold epoch_ok in H.
      by apply andb_true_iff in H as [[H _]%andb_true_iff _].
    - eapply ltb_trans; [|apply IH; lia].
      replace (e1 + 1 + Z.of_nat (S k)) with (e1 + 1 + Z.of_nat k + 1) by lia.
      pose proof (epoch_ok_range (e1 + 1 + Z.of_nat k) ltac:(lia)) as H.
      unfold epoch_ok in H.
      by apply andb_true_iff in H as [[H _]%andb_true_iff _]. }
  replace e2 with (e1 + 1 + Z.of_nat (Z.to_nat (e2 - e1 - 1))) by lia.
  apply Hk. lia.
Qed.

Lemma within_relativeb_spec tol x y :
  within_relativeb tol x y = true -> within_relative tol x y.
Proof.
  unfold within_relativeb, within_relative.
  intros [H1 H2]%andb_true_iff. by rewrite <- !Qle_bool_iff.
Qed.




(** ** Class weights and sample weights *)

Section UniqueCounts.

Implicit Types (k : Z) (tbl : list (Z * nat)) (y : list Z).

Lemma count_label_keys k tbl x :
  x ∈ map fst (count_label k tbl) <-> x = k \/ x ∈ map fst tbl.
Proof.
  induction tbl as [|[k' c] rest IH]; simpl.
  - rewrite list_elem_of_singleton, elem_of_nil. tauto.
  - destruct (Z.ltb_spec k k'); [simpl; rewrite !elem_of_cons; tauto|].
    destruct (Z.eqb_spec k k') as [->|]; simpl.
    + rewrite !elem_of_cons. tauto.
    + rewrite !elem_of_cons, IH. tauto.
Qed.

Lemma count_label_sorted k tbl :
  StronglySorted Z.lt (map fst tbl) ->
  StronglySorted Z.lt (map fst (count_label k tbl)).
Proof.
  induction tbl as [|[k' c] rest IH]; simpl; intros Hs.
  - repeat constructor.
  - apply StronglySorted_inv in Hs as [Hrest Hall].
    destruct (Z.ltb_spec k k').
    + simpl. constructor; [by constructor|].
      constructor; [done|]. eapply Forall_impl; [exact Hall|]. simpl. lia.
    + destruct (Z.eqb_spec k k') as [->|Hne]; simpl.
      * by constructor.
      * constructor; [by apply IH|].
        apply Forall_forall. intros x Hx.
        apply count_label_keys in Hx as [->|Hx]; [lia|].
        rewrite Forall_forall in Hall. by apply Hall.
Qed.

Lemma count_label_positive k tbl :
  Forall (fun kc => (0 < kc.2)%nat) tbl ->
  Forall (fun kc => (0 < kc.2)%nat) (count_label k tbl).
Proof.
  induction tbl as [|[k' c] rest IH]; simpl; intros Hp.
  - repeat constructor.
  - apply Forall_cons in Hp as [Hc Hrest].
    destruct (k <? k'); [repeat constructor; done|].
    destruct (k =? k'); constructor; simpl in *; auto with lia.
Qed.

Lemma np_unique_sorted y : StronglySorted Z.lt (map fst (np_unique y)).
Proof.
  induction y as [|k y IH]; simpl; [constructor|].
  by apply count_label_sorted.
Qed.

Lemma np_unique_positive y : Forall (fun kc => (0 < kc.2)%nat) (np_unique y).
Proof.
  induction y as [|k y IH]; simpl; [constructor|].
  by apply count_label_positive.
Qed.

Lemma np_unique_keys y x : x ∈ map fst (np_unique y) <-> x ∈ y.
Proof.
  induction y as [|k y IH]; simpl; [done|].
  by rewrite count_label_keys, IH, elem_of_cons.
Qed.

Lemma np_unique_NoDup y : NoDup (map fst (np_unique y)).
Proof.
  generalize (np_unique_sorted y). generalize (map fst (np_unique y)).
  induction 1 as [|a l Hs IH Hall]; constructor; [|done].
  intros Hin. rewrite Forall_forall in Hall. specialize (Hall _ Hin). lia.
Qed.

Lemma np_unique_nonempty y : y <> [] -> np_unique y <> [].
Proof.
  destruct y as [|k y]; [done|]. intros _ Heq.
  assert (k ∈ map fst (np_unique (k :: y))) as Hin
    by (apply np_unique_keys, list_elem_of_here).
  rewrite Heq in Hin. by apply elem_of_nil in Hin.
Qed.

Lemma degenerate_np_unique y : degenerate (np_unique y) = bool_decide (y = []).
Proof.
  unfold degenerate. destruct y as [|k y].
  - done.
  - rewrite (bool_decide_eq_false_2 _) by done.
    pose proof (np_unique_nonempty (k :: y)) as Hne.
    destruct (np_unique (k :: y)) as [|kc tbl] eqn:Heq; [by exfalso; apply Hne|].
    simpl. pose proof (np_unique_positive (k :: y)) as Hp. rewrite Heq in Hp.
    apply Forall_cons in Hp as [Hc Hp].
    destruct (kc.2) eqn:?; [lia|]. simpl.
    apply not_true_is_false. intros Hex.
    apply existsb_exists in Hex as (c & Hin & Hc0).
    apply in_map_iff in Hin as (kc' & <- & Hin).
    rewrite Forall_forall in Hp. apply list_elem_of_In in Hin. specialize (Hp _ Hin).
    apply Nat.eqb_eq in Hc0. lia.
Qed.

End UniqueCounts.

Section ClassWeights.

Implicit Types (k : Z) (uc : list (Z * nat)) (y : list Z) (d : gmap Z Q).

Lemma foldl_insert_notin (f : nat -> Q) uc d k :
  k ∉ map fst uc ->
  foldl (fun d kv => <[kv.1 := f kv.2]> d) d uc !! k = d !! k.
Proof.
  revert d. induction uc as [|[k' c] rest IH]; simpl; intros d Hk; [done|].
  rewrite not_elem_of_cons in Hk. destruct Hk as [Hne Hk].
  rewrite IH by done. by rewrite lookup_insert_ne.
Qed.

Lemma foldl_insert_in (f : nat -> Q) uc d k c :
  NoDup (map fst uc) -> (k, c) ∈ uc ->
  foldl (fun d kv => <[kv.1 := f kv.2]> d) d uc !! k = Some (f c).
Proof.
  revert d. induction uc as [|[k' c'] rest IH]; simpl; intros d Hnd Hin.
  - by apply elem_of_nil in Hin.
  - apply NoDup_cons in Hnd as [Hfresh Hnd].
    apply elem_of_cons in Hin as [Heq|Hin].
    + injection Heq as -> ->.
      rewrite foldl_insert_notin by done. apply lookup_insert_eq.
    + by apply IH.
Qed.

Lemma class_weights_lookup y k c :
  y <> [] -> (k, c) ∈ np_unique y ->
  class_weights y !! k
  = Some (inverse_frequency (length y) (length (np_unique y)) c).
Proof.
  intros Hy Hin. unfold class_weights.
  rewrite degenerate_np_unique, bool_decide_eq_false_2 by done.
  apply (foldl_insert_in (inverse_frequency (length y) (length (np_unique y)))); [|done].
  apply np_unique_NoDup.
Qed.

Lemma inject_nat_pos (n : nat) : (0 < n)%nat -> (0 < inject_Z (Z.of_nat n))%Q.
Proof. intros H. change 0%Q with (inject_Z 0). rewrite <- Zlt_Qlt. lia. Qed.

Lemma inverse_frequency_pos (t n c : nat) :
  (0 < t)%nat -> (0 < n)%nat -> (0 < c)%nat -> (0 < inverse_frequency t n c)%Q.
Proof.
  intros Ht Hn Hc. unfold inverse_frequency.
  apply Qlt_shift_div_l.
  - apply Qmult_lt_0_compat; by apply inject_nat_pos.
  - rewrite Qmult_0_l. by apply inject_nat_pos.
Qed.

Lemma inverse_frequency_share (t n c : nat) :
  (0 < n)%nat -> (0 < c)%nat ->
  (inverse_frequency t n c * inject_Z (Z.of_nat c)
   == inject_Z (Z.of_nat t) / inject_Z (Z.of_nat n))%Q.
Proof.
  intros Hn Hc. unfold inverse_frequency.
  pose proof (inject_nat_pos n Hn). pose proof (inject_nat_pos c Hc).
  field. split; lra.
Qed.

Lemma lookup_all_map d (f : nat -> Q) uc :
  (forall k c, (k, c) ∈ uc -> d !! k = Some (f c)) ->
  lookup_all d (map fst uc) = Ok (map (fun kc => f kc.2) uc).
Proof.
  induction uc as [|[k c] rest IH]; simpl; intros Hd; [done|].
  rewrite (Hd k c) by apply list_elem_of_here.
  rewrite IH; [done|]. intros k' c' Hin. apply Hd. by apply list_elem_of_further.
Qed.

Lemma lookup_all_labels d (P : Q -> Prop) y :
  (forall k, k ∈ y -> exists w, d !! k = Some w /\ P w) ->
  exists ws, lookup_all d y = Ok ws /\ length ws = length y /\ Forall P ws.
Proof.
  induction y as [|k rest IH]; simpl; intros Hd.
  - exists []. by repeat split.
  - destruct (Hd k) as (w & -> & Hw); [apply list_elem_of_here|].
    destruct IH as (ws & -> & Hlen & Hall).
    { intros k' Hin. apply Hd. by apply list_elem_of_further. }
    exists (w :: ws). simpl. repeat split; [by rewrite Hlen|by constructor].
Qed.

Lemma Qsum_shares (x : Q) (f : nat -> Q) uc :
  Forall (fun kc => (f kc.2 * inject_Z (Z.of_nat kc.2) == x)%Q) uc ->
  (Qsum (zip_with (fun w c => w * inject_Z (Z.of_nat c)) (map (fun kc => f kc.2) uc)
           (map snd uc))
   == inject_Z (Z.of_nat (length uc)) * x)%Q.
Proof.
  induction 1 as [|[k c] rest Hx Hall IH].
  - simpl. ring.
  - cbn [map zip_with Qsum foldr length]. unfold Qsum in IH. rewrite IH.
    simpl in Hx. rewrite Hx. rewrite Nat2Z.inj_succ, <- Z.add_1_r, inject_Z_plus. ring.
Qed.

End ClassWeights.

Lemma np_unique_count y k : k ∈ y -> exists c, (k, c) ∈ np_unique y.
Proof.
  intros Hin. apply np_unique_keys in Hin.
  apply list_elem_of_fmap in Hin as ([k' c] & -> & Hin). by exists c.
Qed.


Lemma sample_weights_positive (y : list Z) :
  y <> [] ->
  exists ws,
    sample_weights y = Ok ws /\ length ws = length y
    /\ Forall (fun w => (0 < w)%Q) ws.
Proof.
  intros Hy.
  assert (0 < length y)%nat as Ht by (destruct y; [done|simpl; lia]).
  assert (0 < length (np_unique y))%nat as Hn.
  { pose proof (np_unique_nonempty y Hy). destruct (np_unique y); [done|simpl; lia]. }
  pose proof (np_unique_positive y) as Hpos. rewrite Forall_forall in Hpos.
  apply lookup_all_labels. intros k Hk.
  destruct (np_unique_count y k Hk) as [c Hc].
  eexists. split; [by apply class_weights_lookup|].
  apply inverse_frequency_pos; [done..|]. by apply (Hpos (k, c)).
Qed.

Lemma weighted_class_total_samples (y : list Z) :
  y <> [] ->
  exists t,
    weighted_class_total (class_weights y) (np_unique y) = Ok t
    /\ (t == inject_Z (Z.of_nat (length y)))%Q.
Proof.
  intros Hy.
  assert (0 < length (np_unique y))%nat as Hn.
  { pose proof (np_unique_nonempty y Hy). destruct (np_unique y); [done|simpl; lia]. }
  pose proof (np_unique_positive y) as Hpos. rewrite Forall_forall in Hpos.
  unfold weighted_class_total.
  rewrite (lookup_all_map _ (inverse_frequency (length y) (length (np_unique y))))
    by (intros; by apply class_weights_lookup).
  eexists. split; [reflexivity|].
  rewrite (Qsum_shares (inject_Z (Z.of_nat (length y))
                        / inject_Z (Z.of_nat (length (np_unique y))))).
  - pose proof (inject_nat_pos _ Hn). field. lra.
  - apply Forall_forall. intros [k c] Hin. simpl.
    apply inverse_frequency_share; [done|]. by apply (Hpos (k, c)).
Qed.

(** The comprehension over the labels never meets a missing key. *)
Lemma sample_weights_total (y : list Z) : exists ws, sample_weights y = Ok ws.
Proof.
  destruct y as [|k y]; [by exists []|].
  destruct (sample_weights_positive (k :: y)) as (ws & Hws & _); [done|].
  by exists ws.
Qed.

(** C1, as the code has it.  For a non-empty label vector every class
    gets the weight totalSamples / (numClasses * count), every sample gets a
    strictly positive weight, and the sum over the classes of
    weight * count is totalSamples (not totalSamples * numClasses). *)
Theorem class_weights_positive_total (y : list Z) :
  y <> [] ->
  exists ws t,
    (forall k c, (k, c) ∈ np_unique y ->
       class_weights y !! k
       = Some (inverse_frequency (length y) (length (np_unique y)) c))
    /\ sample_weights y = Ok ws
    /\ length ws = length y
    /\ Forall (fun w => (0 < w)%Q) ws
    /\ weighted_class_total (class_weights y) (np_unique y) = Ok t
    /\ (t == inject_Z (Z.of_nat (length y)))%Q.
Proof.
  intros Hy.
  destruct (sample_weights_positive y Hy) as (ws & Hws & Hlen & Hall).
  destruct (weighted_class_total_samples y Hy) as (t & Ht & Heq).
  exists ws, t. split; [intros; by apply class_weights_lookup|]. done.
Qed.

Lemma class_weights_positive_total_witness :
  exists ws t,
    (forall k c, (k, c) ∈ np_unique Lab.scenario_labels ->
       class_weights Lab.scenario_labels !! k
       = Some (inverse_frequency (length Lab.scenario_labels)
                 (length (np_unique Lab.scenario_labels)) c))
    /\ sample_weights Lab.scenario_labels = Ok ws
    /\ length ws = length Lab.scenario_labels
    /\ Forall (fun w => (0 < w)%Q) ws
    /\ weighted_class_total (class_weights Lab.scenario_labels)
         (np_unique Lab.scenario_labels) = Ok t
    /\ (t == inject_Z (Z.of_nat (length Lab.scenario_labels)))%Q.
Proof. apply (class_weights_positive_total Lab.scenario_labels). discriminate. Defined.

(** C1 as stated fails: on the labels 0, 0, 0, 1 (4 samples, 2 classes) the
    sum of weight * count is 4, not 4 * 2. *)
Lemma class_total_is_not_samples_times_classes :
  exists t,
    weighted_class_total (class_weights Lab.labels) (np_unique Lab.labels) = Ok t
    /\ ~ (t == inject_Z (Z.of_nat (length Lab.labels * length (np_unique Lab.labels))))%Q.
Proof.
  eexists. split; [vm_compute; reflexivity|]. vm_compute. discriminate.
Qed.
(** ** Reasoning about computations *)

Section Respects.

Context (R : World -> World -> Prop) `{!PreOrder R}.

Lemma respects_ret {A} (a : A) : respects R (ret a).
Proof. intros w. reflexivity. Qed.

Lemma respects_raise {A} (e : exn) : respects R (@raise A e).
Proof. intros w. reflexivity. Qed.

Lemma respects_lift {A} (r : result A) : respects R (lift r).
Proof. intros w. reflexivity. Qed.

Lemma respects_get_model : respects R get_model.
Proof. intros w. reflexivity. Qed.

Lemma respects_get_self : respects R get_self.
Proof. intros w. reflexivity. Qed.

Lemma respects_bind {A B} (m : M A) (k : A -> M B) :
  respects R m -> (forall a, respects R (k a)) -> respects R (bind m k).
Proof.
  intros Hm Hk w. unfold bind. specialize (Hm w).
  destruct (m w) as [w' [a|e]]; simpl in *; [|done].
  etrans; [exact Hm|apply Hk].
Qed.

Lemma respects_try_except {A} (m : M A) (h : exn -> M A) :
  respects R m -> (forall e, respects R (h e)) -> respects R (try_except m h).
Proof.
  intros Hm Hh w. unfold try_except. specialize (Hm w).
  destruct (m w) as [w' [a|e]]; simpl in *; [done|].
  etrans; [exact Hm|apply Hh].
Qed.

Lemma respects_try_except_value_error {A} (m : M A) (h : exn -> M A) :
  respects R m -> (forall e, respects R (h e)) ->
  respects R (try_except_value_error m h).
Proof.
  intros Hm Hh w. unfold try_except_value_error. specialize (Hm w).
  destruct (m w) as [w' [a|e]]; simpl in *; [done|].
  destruct (is_value_error e); simpl; [|done].
  etrans; [exact Hm|apply Hh].
Qed.

End Respects.

(** Walks through a computation built from [bind], [try_except] and the
    branching of the source, leaving the state-changing primitives. *)
Create HintDb respects.

Ltac respects_steps :=
  repeat match goal with
    | |- respects _ _ => solve [auto with respects]
    | |- respects _ (ret _) => apply respects_ret; tc_solve
    | |- respects _ (raise _) => apply respects_raise; tc_solve
    | |- respects _ (lift _) => apply respects_lift; tc_solve
    | |- respects _ get_model => apply respects_get_model; tc_solve
    | |- respects _ get_self => apply respects_get_self; tc_solve
    | |- respects _ (bind _ _) => apply respects_bind; [tc_solve| |intros ?]
    | |- respects _ (try_except _ _) =>
        apply respects_try_except; [tc_solve| |intros ?]
    | |- respects _ (try_except_value_error _ _) =>
        apply respects_try_except_value_error; [tc_solve| |intros ?]
    | |- respects _ (if ?b then _ else _) => destruct b
    | |- respects _ (match ?x with _ => _ end) => destruct x
    end.

(** What is left is a primitive that writes to the world. *)
Ltac respects_prim := intros ?; hnf; simpl; try done.


Global Instance same_self_preorder : PreOrder same_self.
Proof. split; [done|]. intros x y z; unfold same_self; congruence. Qed.
Global Instance same_round_preorder : PreOrder same_round.
Proof. split; [done|]. intros x y z; unfold same_round; congruence. Qed.
Global Instance same_data_preorder : PreOrder same_data.
Proof. split; [done|]. intros x y z [] []; split; congruence. Qed.
Global Instance same_metrics_preorder : PreOrder same_metrics.
Proof. split; [done|]. intros x y z; unfold same_metrics; congruence. Qed.
Global Instance keeps_aligned_preorder : PreOrder keeps_aligned.
Proof. split; [intros x|intros x y z]; unfold keeps_aligned; tauto. Qed.
Global Instance no_balancing_preorder : PreOrder no_balancing.
Proof.
  split.
  - intros x. exists []. by rewrite app_nil_r.
  - intros x y z (t1 & H1 & F1) (t2 & H2 & F2). exists (t1 ++ t2).
    rewrite H2, H1, <- app_assoc. split; [done|].
    rewrite forallb_app, F1, F2. done.
Qed.

Lemma respects_weaken {A} (R R' : World -> World -> Prop) (m : M A) :
  (forall w w', R w w' -> R' w w') -> respects R m -> respects R' m.
Proof. intros HR Hm w. apply HR, Hm. Qed.

Lemma same_self_round {A} (m : M A) : respects same_self m -> respects same_round m.
Proof. apply respects_weaken. unfold same_self, same_round. by intros w w' ->. Qed.
Lemma same_self_data {A} (m : M A) : respects same_self m -> respects same_data m.
Proof. apply respects_weaken. unfold same_self, same_data. by intros w w' ->. Qed.
Lemma same_self_metrics {A} (m : M A) : respects same_self m -> respects same_metrics m.
Proof. apply respects_weaken. unfold same_self, same_metrics. by intros w w' ->. Qed.
Lemma same_metrics_aligned {A} (m : M A) :
  respects same_metrics m -> respects keeps_aligned m.
Proof. apply respects_weaken. unfold same_metrics, keeps_aligned. by intros w w' ->. Qed.

#[export] Hint Resolve same_self_round same_self_data same_self_metrics
  same_metrics_aligned : respects.

Section Handlers.

Context (E : Extern).

Lemma receive_parameters_same_self p : respects same_self (receive_parameters E p).
Proof. unfold receive_parameters. respects_steps; respects_prim. Qed.

Lemma get_parameters_same_self : respects same_self get_parameters.
Proof. unfold get_parameters. respects_steps; respects_prim. Qed.

Lemma evaluation_block_same_self c sw : respects same_self (evaluation_block E c sw).
Proof. unfold evaluation_block. respects_steps; respects_prim. Qed.

Hint Resolve receive_parameters_same_self get_parameters_same_self
  evaluation_block_same_self : respects.

Lemma fit_self p w :
  self (fit E p w).1
  = {| round := S (round (self w)); X_labeled := X_labeled (self w);
       y_labeled := y_labeled (self w);
       metrics_history := metrics_history (self w) |}.
Proof.
  unfold fit. unfold bind at 1. simpl. unfold bind at 1. simpl.
  match goal with
  | |- self (?m ?w0).1 = _ => assert (respects same_self m) as Hm
  end.
  { respects_steps; respects_prim. }
  apply Hm.
Qed.

Lemma append_metric_same_round key v : respects same_round (append_metric key v).
Proof.
  intros w. unfold append_metric, bind. simpl.
  by destruct (metrics_history (self w) !! key).
Qed.

Lemma append_metric_same_data key v : respects same_data (append_metric key v).
Proof.
  intros w. unfold append_metric, bind. simpl.
  by destruct (metrics_history (self w) !! key).
Qed.

Hint Resolve append_metric_same_round append_metric_same_data : respects.

Lemma evaluate_same_round p : respects same_round (evaluate E p).
Proof. unfold evaluate. respects_steps; respects_prim. Qed.

Lemma evaluate_same_data p : respects same_data (evaluate E p).
Proof. unfold evaluate. respects_steps; respects_prim. Qed.

End Handlers.

Section Rounds.

Context (E : Extern).

Lemma handle_round r w :
  round (self (handle E r w).1)
  = (round (self w) + (if is_fit_request r then 1 else 0))%nat.
Proof.
  destruct r as [|p|p]; unfold handle, bind; simpl.
  - pose proof (get_parameters_same_self w) as H. hnf in H.
    destruct (get_parameters w) as [w' [a|e]]; simpl in *; rewrite H; lia.
  - pose proof (fit_self E p w) as H.
    destruct (fit E p w) as [w' [a|e]]; simpl in *; rewrite H; simpl; lia.
  - pose proof (evaluate_same_round E p w) as H. hnf in H.
    destruct (evaluate E p w) as [w' [a|e]]; simpl in *; rewrite H; lia.
Qed.

Lemma serve_round rs : forall w,
  (round (self w) <= round (self (serve E rs w).1) <= round (self w) + count_fits rs)%nat
  /\ ((serve E rs w).2 = Ok tt ->
      round (self (serve E rs w).1) = (round (self w) + count_fits rs)%nat).
Proof.
  induction rs as [|r rest IH]; intros w.
  - simpl. unfold count_fits. simpl. lia.
  - simpl. unfold bind. pose proof (handle_round r w) as Hr.
    assert (count_fits (r :: rest)
            = ((if is_fit_request r then 1 else 0) + count_fits rest)%nat) as ->.
    { unfold count_fits. simpl. by destruct (is_fit_request r). }
    destruct (handle E r w) as [w1 [[]|e]]; simpl in *.
    + destruct (IH w1) as [Hb He]. rewrite Hr in Hb, He. split; [lia|].
      intros Hok. rewrite (He Hok). lia.
    + split; [lia|done].
Qed.

End Rounds.

(** C8. The round counter starts at 0; every [fit], whatever its outcome,
    leaves it one higher; [get_parameters] and [evaluate] leave it as it
    is; so over any sequence of requests it never goes down, and after a
    sequence served to the end it has grown by the number of [fit]
    requests. *)
Theorem round_counter (E : Extern) :
  (forall X y, round (FeSEMClient_init X y) = 0%nat)
  /\ (forall p w, round (self (fit E p w).1) = S (round (self w)))
  /\ (forall w, round (self (get_parameters w).1) = round (self w))
  /\ (forall p w, round (self (evaluate E p w).1) = round (self w))
  /\ (forall rs w,
        (round (self w) <= round (self (serve E rs w).1)
         <= round (self w) + count_fits rs)%nat
        /\ ((serve E rs w).2 = Ok tt ->
            round (self (serve E rs w).1) = (round (self w) + count_fits rs)%nat)).
Proof.
  split; [done|]. split; [intros; by rewrite fit_self|].
  split; [intros w; by rewrite (get_parameters_same_self w)|].
  split; [intros p w; apply evaluate_same_round|].
  intros rs w. apply serve_round.
Qed.
Lemma round_counter_witness :
  round (self (serve (Lab.extern Lab.session) (Lab.script Lab.session 0)
                 (Lab.world Lab.start_weights Lab.features6 Lab.labels6)).1)
  = (0 + count_fits (Lab.script Lab.session 0))%nat.
Proof.
  apply (proj2 (proj2 (proj2 (proj2 (proj2 (round_counter (Lab.extern Lab.session)))))
                  (Lab.script Lab.session 0)
                  (Lab.world Lab.start_weights Lab.features6 Lab.labels6))).
  vm_compute. reflexivity.
Defined.

(** ** The class balancer *)

(** C2. When the smallest class count is below 2, and likewise when the
    oversampling itself raises, the balancer returns the dataset it was
    given. *)
Theorem balance_returns_input (E : Extern) (X : matrix) (y : list Z) (w : World) :
  (exists m, series_min (map snd (value_counts y)) = Some m /\ (m < 2)%nat)
  \/ (exists e,
        smote_fit_resample E
          (choose_k_neighbors (series_min (map snd (value_counts y)))) X y
        = Raise e) ->
  (balance_data_with_smote E X y w).2 = Ok (X, y).
Proof.
  intros H. unfold balance_data_with_smote, bind, try_except. simpl.
  destruct H as [(m & -> & Hm)|[e He]].
  - simpl. by rewrite (proj2 (Nat.ltb_lt m 2) Hm).
  - destruct (lt_two _); [done|]. unfold lift. by rewrite He.
Qed.

Lemma balance_returns_input_witness :
  (balance_data_with_smote (Lab.extern Lab.quiet) Lab.features Lab.scenario_labels
     (Lab.world [] [] [])).2
  = Ok (Lab.features, Lab.scenario_labels)
  /\ (balance_data_with_smote (Lab.extern Lab.quiet) Lab.features [0; 0; 1; 1]
        (Lab.world [] [] [])).2
     = Ok (Lab.features, [0; 0; 1; 1]).
Proof.
  split.
  - apply balance_returns_input. left. exists 1%nat. split; [reflexivity|lia].
  - apply balance_returns_input. right. eexists. reflexivity.
Defined.

(** ** The connection loop *)

Lemma connect_attempt_fails (E : Extern) X y attempt rest w e :
  channel_ready E attempt = Raise e ->
  connect_loop E X y (attempt :: rest) w
  = if (attempt <? max_retries - 1)%nat
    then connect_loop E X y rest (logged w [EvAttempt attempt; EvSleep retry_delay])
    else (logged w [EvAttempt attempt], Raise e).
Proof.
  intros He. simpl. unfold bind at 1. unfold try_except.
  unfold bind at 1. simpl. unfold bind at 1. unfold lift at 1. rewrite He.
  destruct (attempt <? 9)%nat; [|done].
  unfold bind, call, logged. simpl. by rewrite <- app_assoc.
Qed.

Lemma connect_loop_never_ready (E : Extern) X y (w : World) :
  (forall attempt, exists e, channel_ready E attempt = Raise e) ->
  exists e,
    channel_ready E 9 = Raise e
    /\ connect_loop E X y (seq 0 max_retries) w = (logged w never_ready_calls, Raise e).
Proof.
  intros Hnever. destruct (Hnever 9%nat) as [e9 H9]. exists e9. split; [done|].
  change (seq 0 max_retries) with [0; 1; 2; 3; 4; 5; 6; 7; 8; 9]%nat.
  do 9 (match goal with
        | |- connect_loop _ _ _ (?a :: _) _ = _ =>
            let e := fresh "e" in let H := fresh "H" in
            destruct (Hnever a) as [e H];
            rewrite (connect_attempt_fails E X y a _ _ e H);
            change (a <? max_retries - 1)%nat with true; cbv iota
        end).
  rewrite (connect_attempt_fails E X y 9%nat _ _ e9 H9).
  change (9 <? max_retries - 1)%nat with false. cbv iota.
  unfold logged. simpl. by rewrite <- !app_assoc.
Qed.

(** With a channel that is never ready [run_client] ends in an exception:
    the one of the data checks, or the one of the tenth attempt. *)
Lemma run_client_never_ready (E : Extern) X y (w : World) :
  (forall attempt, exists e, channel_ready E attempt = Raise e) ->
  exists e, (run_client E X y w).2 = Raise e.
Proof.
  intros Hnever. unfold run_client. unfold bind at 1.
  destruct (balance_data_with_smote E X y w) as [wb [[Xb yb]|e]]; [|by eexists].
  unfold bind at 1. destruct (array_size Xb =? 0)%nat; [by eexists|]. simpl.
  unfold bind at 1.
  destruct (existsb any_isnan Xb || existsb any_isinf Xb); [by eexists|]. simpl.
  unfold bind at 1. simpl. unfold bind at 1. simpl.
  match goal with |- exists e, (?f ?w1).2 = Raise e =>
    destruct (connect_loop_never_ready E Xb yb w1 Hnever) as (e & _ & Hloop);
    exists e; change f with (connect_loop E Xb yb (seq 0 max_retries))
  end.
  by rewrite Hloop.
Qed.

(** C5. With a channel that is never ready the loop makes exactly ten
    attempts, sleeps [retry_delay] = 10 between one attempt and the next
    (nine sleeps), and after the tenth attempt raises that attempt's
    exception. *)
Theorem connection_retries_exhausted (E : Extern) X y (w : World) :
  (forall attempt, exists e, channel_ready E attempt = Raise e) ->
  exists e,
    channel_ready E 9 = Raise e
    /\ connect_loop E X y (seq 0 max_retries) w = (logged w never_ready_calls, Raise e)
    /\ never_ready_calls
       = [EvAttempt 0; EvSleep 10; EvAttempt 1; EvSleep 10; EvAttempt 2; EvSleep 10;
          EvAttempt 3; EvSleep 10; EvAttempt 4; EvSleep 10; EvAttempt 5; EvSleep 10;
          EvAttempt 6; EvSleep 10; EvAttempt 7; EvSleep 10; EvAttempt 8; EvSleep 10;
          EvAttempt 9]
    /\ count_events is_attempt never_ready_calls = 10%nat
    /\ count_events is_sleep never_ready_calls = 9%nat.
Proof.
  intros Hnever.
  destruct (connect_loop_never_ready E X y w Hnever) as (e & He & Hloop).
  exists e. by repeat split.
Qed.

Lemma connection_retries_exhausted_witness :
  exists e,
    channel_ready (Lab.extern Lab.offline) 9 = Raise e
    /\ connect_loop (Lab.extern Lab.offline) Lab.features Lab.labels
         (seq 0 max_retries) (Lab.world [] [] [])
       = (logged (Lab.world [] [] []) never_ready_calls, Raise e)
    /\ never_ready_calls
       = [EvAttempt 0; EvSleep 10; EvAttempt 1; EvSleep 10; EvAttempt 2; EvSleep 10;
          EvAttempt 3; EvSleep 10; EvAttempt 4; EvSleep 10; EvAttempt 5; EvSleep 10;
          EvAttempt 6; EvSleep 10; EvAttempt 7; EvSleep 10; EvAttempt 8; EvSleep 10;
          EvAttempt 9]
    /\ count_events is_attempt never_ready_calls = 10%nat
    /\ count_events is_sleep never_ready_calls = 9%nat.
Proof.
  apply (connection_retries_exhausted (Lab.extern Lab.offline)).
  intros attempt. eexists. reflexivity.
Defined.

(** ** What each handler does to the world *)

Section Reception.

Context (E : Extern).

Lemma receive_parameters_eq p w :
  receive_parameters E p w
  = match received_weights E p with
    | Raise e => (w, Raise e)
    | Ok global_weights =>
        match model_set_weights E (model w) global_weights with
        | Ok m' =>
            ({| model := m'; self := self w; calls := calls w ++ [EvSetWeights] |},
             Ok tt)
        | Raise e => (logged w [EvSetWeights], Raise e)
        end
    end.
Proof.
  unfold receive_parameters, received_weights, bind, try_except,
    try_except_value_error, lift.
  destruct p as [tensors|arrays]; simpl.
  - destruct (parameters_to_ndarrays E tensors) as [gw|e]; [|done]. simpl.
    destruct (model_set_weights E (model w) gw) as [m'|e]; simpl; [done|].
    by destruct (is_value_error e).
  - destruct (ndarrays_to_parameters E arrays) as [tensors|e]; [|done].
    destruct (parameters_to_ndarrays E tensors) as [gw|e]; [|done]. simpl.
    destruct (model_set_weights E (model w) gw) as [m'|e]; simpl; [done|].
    by destruct (is_value_error e).
Qed.

(** The world [fit] trains in, once the weights [m1] are set. *)
Lemma fit_after_reception p w gw m1 ws :
  received_weights E p = Ok gw ->
  model_set_weights E (model w) gw = Ok m1 ->
  sample_weights (y_labeled (self w)) = Ok ws ->
  let X := X_labeled (self w) in
  let y := y_labeled (self w) in
  let trained := model_fit E m1 X y ws in
  let w' := {| model := trained.1;
               self := {| round := S (round (self w)); X_labeled := X;
                          y_labeled := y;
                          metrics_history := metrics_history (self w) |};
               calls := calls w ++ [EvFit (S (round (self w))); EvSetWeights;
                                    EvCompile; EvModelFit] |} in
  fit E p w
  = match trained.2 with
    | Raise e => (w', Raise e)
    | Ok history =>
        if history_invalid history || loss_has_nan history
        then (w', Ok (trained.1, length X, {[ "loss" := FNum 0 ]}))
        else
          match history_last history "loss", history_last history "accuracy" with
          | Ok final_loss, Ok _ =>
              (w', Ok (trained.1, length X, {[ "loss" := final_loss ]}))
          | Raise e, _ => (w', Raise e)
          | _, Raise e => (w', Raise e)
          end
    end.
Proof.
  intros Hgw Hset Hws X y trained w'. subst w'.
  unfold fit. unfold bind at 1. simpl. unfold bind at 1. simpl.
  unfold bind at 1. simpl. unfold bind at 1.
  rewrite receive_parameters_eq, Hgw. simpl. rewrite Hset.
  unfold bind at 1. unfold lift at 1. rewrite Hws.
  unfold bind, call, logged, put_model, get_model, lift, ret. simpl.
  rewrite <- !app_assoc. simpl. fold X y. fold trained.
  destruct (trained.2) as [history|e]; [|done].
  destruct (history_invalid history); simpl; [done|].
  destruct (loss_has_nan history); simpl; [done|].
  destruct (history_last history "loss"); [|done].
  by destruct (history_last history "accuracy").
Qed.

End Reception.

(** C7, as the code has it.  When reception and training went through and
    the loss history is invalid (an empty [history.history], or one without
    a 'loss' series) or its loss series holds NaN, [fit] does not raise: it
    returns the weights the model holds after the training call, as that
    training left them, with the number of samples and the loss 0.0. *)
Theorem fit_soft_failure (E : Extern) p (w : World) gw m1 ws history :
  received_weights E p = Ok gw ->
  model_set_weights E (model w) gw = Ok m1 ->
  sample_weights (y_labeled (self w)) = Ok ws ->
  (model_fit E m1 (X_labeled (self w)) (y_labeled (self w)) ws).2 = Ok history ->
  history_invalid history = true \/ loss_has_nan history = true ->
  (fit E p w).2
  = Ok (model (fit E p w).1, length (X_labeled (self w)), {[ "loss" := FNum 0 ]})
  /\ model (fit E p w).1
     = (model_fit E m1 (X_labeled (self w)) (y_labeled (self w)) ws).1.
Proof.
  intros Hgw Hset Hws Hh Hbad.
  rewrite (fit_after_reception E p w gw m1 ws Hgw Hset Hws). simpl.
  rewrite Hh.
  assert (history_invalid history || loss_has_nan history = true) as ->.
  { destruct Hbad as [-> | ->]; [done|]. apply orb_true_r. }
  done.
Qed.

Lemma fit_soft_failure_witness :
  (fit (Lab.extern Lab.quiet) (NDArrays Lab.nan_weights)
     (Lab.world Lab.start_weights Lab.features Lab.labels)).2
  = Ok (model (fit (Lab.extern Lab.quiet) (NDArrays Lab.nan_weights)
                 (Lab.world Lab.start_weights Lab.features Lab.labels)).1,
        length Lab.features, {[ "loss" := FNum 0 ]})
  /\ model (fit (Lab.extern Lab.quiet) (NDArrays Lab.nan_weights)
              (Lab.world Lab.start_weights Lab.features Lab.labels)).1
     = Lab.nan_weights.
Proof.
  apply (fit_soft_failure (Lab.extern Lab.quiet) (NDArrays Lab.nan_weights)
           (Lab.world Lab.start_weights Lab.features Lab.labels)
           Lab.nan_weights Lab.nan_weights [4 # 6; 4 # 6; 4 # 6; 4 # 2]%Q
           {[ "loss" := [FNaN]; "accuracy" := [FNum 1] ]});
    [reflexivity..|]. right. reflexivity.
Defined.

(** The weights returned on the soft failure are not unchanged by the round:
    a training that diverges into NaN has its NaN weights returned, which
    are neither the weights the coordinator sent nor the weights the model
    held before.  And a loss series without an entry is no soft failure:
    [fit] raises. *)
Lemma fit_soft_failure_returns_trained_weights :
  (fit Bench.diverging_training (NDArrays Lab.start_weights) Bench.w1).2
  = Ok (Bench.diverged_weights, 4%nat, {[ "loss" := FNum 0 ]})
  /\ Bench.diverged_weights <> Lab.start_weights
  /\ Bench.diverged_weights <> model Bench.w1
  /\ (fit Bench.silent_training (NDArrays Lab.start_weights) Bench.w1).2
     = Raise IndexError.
Proof. repeat split; try reflexivity; discriminate. Qed.

Section Evaluation.

Context (E : Extern).

Lemma append_metric_eq key v w :
  append_metric key v w
  = match metrics_history (self w) !! key with
    | None => (w, Raise KeyError)
    | Some series =>
        ({| model := model w;
            self := {| round := round (self w); X_labeled := X_labeled (self w);
                       y_labeled := y_labeled (self w);
                       metrics_history :=
                         <[key := series ++ [(round (self w), v)]]>
                           (metrics_history (self w)) |};
            calls := calls w |}, Ok tt)
    end.
Proof.
  unfold append_metric, bind, get_self, put_self, raise.
  by destruct (metrics_history (self w) !! key).
Qed.


Lemma evaluate_cases p w :
  aligned (metrics_history (self w)) ->
  (self (evaluate E p w).1 = self w
   /\ ((evaluate E p w).2 = Ok zero_metrics \/ exists e, (evaluate E p w).2 = Raise e))
  \/ exists loss acc f1 l a f,
       metrics_history (self w) !! "loss" = Some l
       /\ metrics_history (self w) !! "accuracy" = Some a
       /\ metrics_history (self w) !! "f1_score" = Some f
       /\ self (evaluate E p w).1
          = {| round := round (self w); X_labeled := X_labeled (self w);
               y_labeled := y_labeled (self w);
               metrics_history :=
                 recorded (metrics_history (self w)) (round (self w)) loss acc f1 l a f |}
       /\ length (X_labeled (self w)) <> 0%nat
       /\ ((evaluate E p w).2
           = Ok (loss, length (X_labeled (self w)),
                 {[ "accuracy" := acc; "f1_score" := f1 ]})
           \/ exists e, (evaluate E p w).2 = Raise e).
Proof.
  intros (l & a & f & Hl & Ha & Hf & _).
  destruct (evaluate E p w) as [wf rf] eqn:Hout. simpl.
  unfold evaluate in Hout. unfold bind at 1 in Hout. simpl in Hout.
  unfold bind at 1 in Hout. rewrite receive_parameters_eq in Hout.
  destruct (received_weights E p) as [gw|e];
    [|injection Hout as <- <-; by left; simpl; eauto].
  simpl in Hout. destruct (model_set_weights E (model w) gw) as [m1|e];
    [|injection Hout as <- <-; by left; simpl; eauto].
  unfold bind at 1 in Hout. simpl in Hout. unfold bind at 1 in Hout.
  destruct (sample_weights_total (y_labeled (self w))) as [ws Hws].
  unfold lift at 1 in Hout. rewrite Hws in Hout.
  unfold bind at 1 in Hout. simpl in Hout.
  destruct (_ || _) eqn:Hempty in Hout;
    [injection Hout as <- <-; by left; simpl; eauto|].
  apply orb_false_iff in Hempty as [HX _]. apply Nat.eqb_neq in HX.
  unfold bind at 1 in Hout. unfold try_except in Hout. unfold bind at 1 in Hout.
  match type of Hout with context [evaluation_block E ?c ?sw ?w1] =>
    pose proof (evaluation_block_same_self E c sw w1) as Hself;
    destruct (evaluation_block E c sw w1) as [w2 [[[loss acc] f1]|e]]
  end; hnf in Hself; simpl in Hself;
    [|injection Hout as <- <-; by left; simpl; eauto].
  right. exists loss, acc, f1, l, a, f. do 3 (split; [done|]).
  simpl in Hout. unfold bind at 1 in Hout.
  rewrite append_metric_eq, Hself in Hout. simpl in Hout. rewrite Hl in Hout.
  unfold bind at 1 in Hout. rewrite append_metric_eq in Hout. simpl in Hout.
  rewrite lookup_insert_ne, Ha in Hout by done.
  unfold bind at 1 in Hout. rewrite append_metric_eq in Hout. simpl in Hout.
  rewrite !lookup_insert_ne, Hf in Hout by done.
  unfold bind, call, logged, get_self, lift, ret in Hout. simpl in Hout.
  fold (recorded (metrics_history (self w)) (round (self w)) loss acc f1 l a f) in Hout.
  destruct (np_save E _) as [[]|e]; injection Hout as <- <-; simpl; eauto 10.
Qed.

End Evaluation.

(** C6, as the code has it.  Once the received parameters are decoded and
    set on the model, an empty dataset, or any exception inside the guarded
    evaluation block, makes [evaluate] return the zero-metrics fallback and
    leaves the client object as it was.  (Errors of decoding and of
    [set_weights] are re-raised before that.) *)
Theorem evaluate_fallback (E : Extern) p (w : World) gw m1 ws :
  received_weights E p = Ok gw ->
  model_set_weights E (model w) gw = Ok m1 ->
  sample_weights (y_labeled (self w)) = Ok ws ->
  length (X_labeled (self w)) = 0%nat
  \/ length (y_labeled (self w)) = 0%nat
  \/ (exists e,
        (evaluation_block E (self w) ws
           {| model := m1; self := self w;
              calls := calls w ++ [EvEvaluate; EvSetWeights; EvCompile] |}).2
        = Raise e) ->
  (evaluate E p w).2 = Ok zero_metrics /\ self (evaluate E p w).1 = self w.
Proof.
  intros Hgw Hset Hws Hcase.
  destruct (evaluate E p w) as [wf rf] eqn:Hout. simpl.
  unfold evaluate in Hout. unfold bind at 1 in Hout. simpl in Hout.
  unfold bind at 1 in Hout. rewrite receive_parameters_eq, Hgw in Hout.
  simpl in Hout. rewrite Hset in Hout.
  unfold bind at 1 in Hout. simpl in Hout. unfold bind at 1 in Hout.
  unfold lift at 1 in Hout. rewrite Hws in Hout.
  unfold bind at 1 in Hout. simpl in Hout. rewrite <- !app_assoc in Hout.
  simpl in Hout.
  destruct (_ || _) eqn:Hempty in Hout; [by injection Hout as <- <-|].
  apply orb_false_iff in Hempty as [HX Hy].
  apply Nat.eqb_neq in HX. apply Nat.eqb_neq in Hy.
  destruct Hcase as [?|[?|[e He]]]; [done..|].
  unfold bind at 1 in Hout. unfold try_except in Hout. unfold bind at 1 in Hout.
  unfold logged in Hout. simpl in Hout. rewrite <- !app_assoc in Hout. simpl in Hout.
  match type of Hout with context [evaluation_block E ?c ?sw ?w1] =>
    pose proof (evaluation_block_same_self E c sw w1) as Hself;
    destruct (evaluation_block E c sw w1) as [w2 [r|e']]
  end; [done|].
  hnf in Hself. simpl in Hself, Hout. by injection Hout as <- <-.
Qed.

Lemma evaluate_fallback_witness :
  ((evaluate (Lab.extern Lab.quiet) (NDArrays Lab.start_weights)
      (Lab.world Lab.start_weights [] [])).2 = Ok zero_metrics
   /\ self (evaluate (Lab.extern Lab.quiet) (NDArrays Lab.start_weights)
             (Lab.world Lab.start_weights [] [])).1
      = self (Lab.world Lab.start_weights [] []))
  /\ ((evaluate (Lab.extern Lab.failing_evaluation) (NDArrays Lab.start_weights)
         (Lab.world Lab.start_weights Lab.features Lab.labels)).2 = Ok zero_metrics
      /\ self (evaluate (Lab.extern Lab.failing_evaluation) (NDArrays Lab.start_weights)
                (Lab.world Lab.start_weights Lab.features Lab.labels)).1
         = self (Lab.world Lab.start_weights Lab.features Lab.labels)).
Proof.
  split.
  - apply (evaluate_fallback (Lab.extern Lab.quiet) _ _ Lab.start_weights
             Lab.start_weights []); [reflexivity..|]. by left.
  - eapply (evaluate_fallback (Lab.extern Lab.failing_evaluation) _ _ Lab.start_weights
             Lab.start_weights); [reflexivity..|].
    right. right. eexists. reflexivity.
Defined.

(** C6 as stated fails: with an empty dataset and weights the model does
    not accept, [evaluate] raises instead of returning the fallback; and an
    error of [np.save], which comes after the guarded block, leaves
    [evaluate] as an exception too. *)
Lemma evaluate_raises_on_rejected_weights :
  (evaluate (Lab.extern Lab.quiet) (NDArrays Lab.ill_shaped_weights)
     (Lab.world Lab.start_weights [] [])).2
  = Raise (ValueError "weights do not match the model")
  /\ (evaluate (Lab.extern Lab.quiet) (NDArrays Lab.ill_shaped_weights)
        (Lab.world Lab.start_weights [] [])).2
     <> Ok zero_metrics
  /\ (evaluate (Lab.extern Lab.unwritable) (NDArrays Lab.start_weights)
        (Lab.world Lab.start_weights Lab.features Lab.labels)).2
     = Raise (OtherException "FileNotFoundError").
Proof. split; [reflexivity|]. split; [discriminate|reflexivity]. Qed.

(** ** Calls to the balancer *)

Lemma call_no_balancing ev : is_balancing ev = false -> respects no_balancing (call ev).
Proof.
  intros Hev w. exists [ev]. split; [done|]. simpl. by rewrite Hev.
Qed.

Lemma put_model_no_balancing m : respects no_balancing (put_model m).
Proof. intros w. exists []. simpl. by rewrite app_nil_r. Qed.

Lemma put_self_no_balancing c : respects no_balancing (put_self c).
Proof. intros w. exists []. simpl. by rewrite app_nil_r. Qed.

#[export] Hint Resolve call_no_balancing put_model_no_balancing
  put_self_no_balancing : respects.
#[export] Hint Extern 1 (is_balancing _ = false) => reflexivity : respects.

Section NoBalancing.

Context (E : Extern).

Lemma receive_parameters_no_balancing p :
  respects no_balancing (receive_parameters E p).
Proof. unfold receive_parameters. respects_steps. Qed.

Lemma get_parameters_no_balancing : respects no_balancing get_parameters.
Proof. unfold get_parameters. respects_steps. Qed.

Lemma evaluation_block_no_balancing c sw :
  respects no_balancing (evaluation_block E c sw).
Proof. unfold evaluation_block. respects_steps. Qed.

Lemma append_metric_no_balancing key v : respects no_balancing (append_metric key v).
Proof. unfold append_metric. respects_steps. Qed.

Hint Resolve receive_parameters_no_balancing get_parameters_no_balancing
  evaluation_block_no_balancing append_metric_no_balancing : respects.

Lemma fit_no_balancing p : respects no_balancing (fit E p).
Proof. unfold fit. respects_steps. Qed.

Lemma evaluate_no_balancing p : respects no_balancing (evaluate E p).
Proof. unfold evaluate. respects_steps. Qed.

Hint Resolve fit_no_balancing evaluate_no_balancing : respects.

Lemma handle_no_balancing r : respects no_balancing (handle E r).
Proof. unfold handle. respects_steps. Qed.

Hint Resolve handle_no_balancing : respects.

Lemma serve_no_balancing rs : respects no_balancing (serve E rs).
Proof. induction rs as [|r rest IH]; simpl; respects_steps. Qed.

Hint Resolve serve_no_balancing : respects.

Lemma connect_loop_no_balancing X y attempts :
  respects no_balancing (connect_loop E X y attempts).
Proof.
  induction attempts as [|attempt rest IH]; simpl; unfold start_numpy_client;
    respects_steps.
Qed.

Lemma fit_same_data p : respects same_data (fit E p).
Proof. intros w. pose proof (fit_self E p w) as H. split; by rewrite H. Qed.

Hint Resolve fit_same_data evaluate_same_data get_parameters_same_self : respects.

Lemma handle_same_data r : respects same_data (handle E r).
Proof. unfold handle. respects_steps. Qed.

Lemma serve_same_data rs : respects same_data (serve E rs).
Proof.
  induction rs as [|r rest IH]; simpl; [apply respects_ret; tc_solve|].
  apply respects_bind; [tc_solve|apply handle_same_data|done].
Qed.

End NoBalancing.

#[export] Hint Resolve receive_parameters_no_balancing get_parameters_no_balancing
  evaluation_block_no_balancing append_metric_no_balancing fit_no_balancing
  evaluate_no_balancing handle_no_balancing serve_no_balancing
  connect_loop_no_balancing : respects.


Global Instance holds_dataset_preorder X y : PreOrder (holds_dataset X y).
Proof.
  split; [by left|]. intros w1 w2 w3 [H12|H12] [H23|H23]; unfold holds_dataset.
  - left. congruence.
  - by right.
  - right. by rewrite H23.
  - by right.
Qed.

Lemma call_holds_dataset X y ev : respects (holds_dataset X y) (call ev).
Proof. intros w. by left. Qed.

Lemma put_model_holds_dataset X y m : respects (holds_dataset X y) (put_model m).
Proof. intros w. by left. Qed.

#[export] Hint Resolve call_holds_dataset put_model_holds_dataset : respects.

Section StartUp.

Context (E : Extern).

Lemma balance_world X y w :
  (balance_data_with_smote E X y w).1
  = logged w (EvBalance ::
                if lt_two (series_min (map snd (value_counts y))) then []
                else [EvSmote (choose_k_neighbors (series_min (map snd (value_counts y))))])
  /\ exists Xb yb, (balance_data_with_smote E X y w).2 = Ok (Xb, yb).
Proof.
  unfold balance_data_with_smote, bind, try_except, call, lift, logged. simpl.
  destruct (lt_two _); simpl; [eauto|].
  rewrite <- app_assoc. simpl.
  destruct (smote_fit_resample E _ X y) as [[Xb yb]|e]; simpl; eauto.
Qed.

Lemma connect_loop_data X y attempts :
  respects (holds_dataset X y) (connect_loop E X y attempts).
Proof.
  unfold respects, holds_dataset.
  induction attempts as [|attempt rest IH]; intros w; [by left|].
  destruct (connect_loop E X y (attempt :: rest) w) as [wf rf] eqn:Hout.
  simpl in Hout. unfold bind at 1 in Hout. unfold try_except in Hout.
  unfold bind at 1 in Hout. simpl in Hout.
  unfold bind at 1 in Hout. unfold lift at 1 in Hout.
  destruct (channel_ready E attempt) as [[]|e].
  - unfold bind at 1 in Hout. unfold start_numpy_client in Hout.
    unfold bind at 1 in Hout. simpl in Hout.
    match type of Hout with context [serve E ?rs ?w1] =>
      pose proof (serve_same_data E rs w1) as [HX Hy];
      destruct (serve E rs w1) as [w2 [[]|e]]
    end; simpl in HX, Hy; unfold bind, call, ret, raise, logged in Hout;
      simpl in Hout.
    + injection Hout as <- <-. simpl. by right.
    + destruct (attempt <? 9)%nat; simpl in Hout;
        [|injection Hout as <- <-; by right].
      match type of Hout with ?f ?w3 = _ =>
        specialize (IH w3)
      end.
      rewrite Hout in IH. simpl in *.
      destruct IH as [Hs|Hd]; [right; by rewrite Hs|by right].
  - unfold bind, call, ret, raise, logged in Hout.
    destruct (attempt <? 9)%nat; simpl in Hout;
      [|injection Hout as <- <-; by left].
    match type of Hout with ?f ?w3 = _ =>
      specialize (IH w3)
    end.
    rewrite Hout in IH. simpl in *. done.
Qed.

End StartUp.

(** C9, as the code has it.  The balancer runs once per [run_client], as
    its first step, before the model is built and before any connection
    attempt; the synthesis runs at most once, inside that call.  No call of
    the balancer or of the synthesis follows, whatever requests are served:
    the handlers never balance and never replace the dataset, and every
    client object is built on the dataset the balancer returned. *)
Theorem balancing_once_at_start (E : Extern) (X : matrix) (y : list Z) (w : World) :
  exists Xb yb tr,
    (balance_data_with_smote E X y w).2 = Ok (Xb, yb)
    /\ calls (run_client E X y w).1
       = calls w
         ++ EvBalance
            :: (if lt_two (series_min (map snd (value_counts y))) then []
                else [EvSmote (choose_k_neighbors
                                 (series_min (map snd (value_counts y))))])
         ++ tr
    /\ count_events is_balancing tr = 0%nat
    /\ (self (run_client E X y w).1 = self w
        \/ (X_labeled (self (run_client E X y w).1) = Xb
            /\ y_labeled (self (run_client E X y w).1) = yb))
    /\ (forall r w1,
          no_balancing w1 (handle E r w1).1 /\ same_data w1 (handle E r w1).1).
Proof.
  destruct (balance_world E X y w) as [Hw (Xb & yb & Hr)].
  exists Xb, yb.
  destruct (run_client E X y w) as [wf rf] eqn:Hout. simpl.
  unfold run_client in Hout. unfold bind at 1 in Hout.
  destruct (balance_data_with_smote E X y w) as [wb rb]. simpl in Hw, Hr.
  subst wb rb.
  match type of Hout with ?m ?w1 = _ =>
    assert (respects no_balancing m) as Hm;
    [|assert (respects (holds_dataset Xb yb) m) as Hdata]
  end.
  { respects_steps. }
  { respects_steps. apply connect_loop_data. }
  match type of Hout with ?m ?w1 = _ => specialize (Hdata w1) end.
  specialize (Hm (logged w (EvBalance ::
                if lt_two (series_min (map snd (value_counts y))) then []
                else [EvSmote (choose_k_neighbors (series_min (map snd (value_counts y))))]))).
  rewrite Hout in Hm, Hdata. unfold holds_dataset in Hdata. simpl in Hm, Hdata.
  destruct Hm as (tr & Hcalls & Hnone). exists tr.
  split; [done|]. split; [rewrite Hcalls; unfold logged; simpl; by rewrite <- app_assoc|].
  split.
  { unfold count_events. clear -Hnone. induction tr as [|ev tr IH]; [done|].
    simpl in *. apply andb_true_iff in Hnone as [Hev Htr].
    destruct (is_balancing ev); [done|]. by apply IH. }
  split; [done|].
  intros r w1. split; [apply handle_no_balancing|apply handle_same_data].
Qed.

(** C9 as stated fails: the balancing is not part of the first [fit].  A
    first [fit] on a fresh client calls neither the balancer nor the
    synthesis; a whole run shows both ahead of the first connection
    attempt; and a client that never connects, and so never trains, has
    balanced all the same. *)
Lemma balancing_is_not_in_first_fit :
  calls (fit (Lab.extern Lab.session) (NDArrays Lab.start_weights)
           (Lab.world Lab.start_weights Lab.features6 Lab.labels6)).1
  = [EvFit 1; EvSetWeights; EvCompile; EvModelFit]
  /\ calls (run_client (Lab.extern Lab.session) Lab.features5 Lab.labels5
             (Lab.world [] [] [])).1
     = [EvBalance; EvSmote 1; EvBuildModel; EvAttempt 0;
        EvFit 1; EvSetWeights; EvCompile; EvModelFit;
        EvEvaluate; EvSetWeights; EvCompile; EvModelEvaluate; EvSave;
        EvFit 2; EvSetWeights; EvCompile; EvModelFit; EvChannelClose]
  /\ count_events is_balance_call
       (calls (run_client (Lab.extern Lab.offline) Lab.features Lab.labels
                 (Lab.world [] [] [])).1) = 1%nat
  /\ count_events is_fit_call
       (calls (run_client (Lab.extern Lab.offline) Lab.features Lab.labels
                 (Lab.world [] [] [])).1) = 0%nat.
Proof. repeat split; vm_compute; reflexivity. Qed.

(** ** The integrity check on weights *)

Lemma get_parameters_eq (w : World) :
  get_parameters w
  = (logged w [EvGetParameters],
     if existsb any_isnan (model w)
     then Raise (ValueError "Model weights contain NaN values.")
     else Ok (model w)).
Proof.
  unfold get_parameters, bind, call, get_model. simpl.
  by destruct (existsb any_isnan (model w)).
Qed.

(** C3, as the code has it.  Only [get_parameters] tests the weights, and
    only for NaN: NaN among the model's weights raises [ValueError], any
    other weights, infinite ones included, are returned.  [fit] and
    [evaluate] test nothing on reception: as soon as the codec decodes the
    parameters and [set_weights] takes them, they are the model's weights
    and the handler goes on to compile the model. *)
Theorem weights_checked_for_nan_on_send_only (E : Extern) :
  (forall w,
     (get_parameters w).2
     = if existsb any_isnan (model w)
       then Raise (ValueError "Model weights contain NaN values.")
       else Ok (model w))
  /\ (forall p w gw m1,
        received_weights E p = Ok gw ->
        model_set_weights E (model w) gw = Ok m1 ->
        receive_parameters E p w
        = ({| model := m1; self := self w; calls := calls w ++ [EvSetWeights] |},
           Ok tt)
        /\ (exists tr,
              calls (fit E p w).1
              = calls w ++ [EvFit (S (round (self w))); EvSetWeights; EvCompile] ++ tr)
        /\ (exists tr,
              calls (evaluate E p w).1
              = calls w ++ [EvEvaluate; EvSetWeights; EvCompile] ++ tr)).
Proof.
  split; [intros w; by rewrite get_parameters_eq|].
  intros p w gw m1 Hgw Hset.
  destruct (sample_weights_total (y_labeled (self w))) as [ws Hws].
  split; [by rewrite receive_parameters_eq, Hgw, Hset|]. split.
  - rewrite (fit_after_reception E p w gw m1 ws Hgw Hset Hws). simpl.
    exists [EvModelFit]. by repeat case_match.
  - destruct (evaluate E p w) as [wf rf] eqn:Hout. simpl.
    unfold evaluate in Hout. unfold bind at 1 in Hout. simpl in Hout.
    unfold bind at 1 in Hout. rewrite receive_parameters_eq, Hgw in Hout.
    simpl in Hout. rewrite Hset in Hout.
    unfold bind at 1 in Hout. simpl in Hout. unfold bind at 1 in Hout.
    unfold lift at 1 in Hout. rewrite Hws in Hout.
    unfold bind at 1 in Hout. simpl in Hout.
    match type of Hout with ?m ?w1 = _ =>
      assert (respects no_balancing m) as Hm; [|specialize (Hm w1)]
    end.
    { respects_steps. }
    rewrite Hout in Hm. destruct Hm as (tr & Hcalls & _). exists tr.
    simpl in Hcalls. rewrite Hcalls. by rewrite <- !app_assoc.
Qed.

Lemma weights_checked_for_nan_on_send_only_witness :
  receive_parameters (Lab.extern Lab.quiet) (NDArrays Lab.nan_weights)
    (Lab.world Lab.start_weights Lab.features Lab.labels)
  = ({| model := Lab.nan_weights;
        self := self (Lab.world Lab.start_weights Lab.features Lab.labels);
        calls := calls (Lab.world Lab.start_weights Lab.features Lab.labels)
                 ++ [EvSetWeights] |}, Ok tt).
Proof.
  apply (proj2 (weights_checked_for_nan_on_send_only (Lab.extern Lab.quiet))
           (NDArrays Lab.nan_weights)
           (Lab.world Lab.start_weights Lab.features Lab.labels)
           Lab.nan_weights Lab.nan_weights eq_refl eq_refl).
Defined.

(** C3 as stated fails: infinite weights leave [get_parameters] without an
    error, and weights holding NaN go through [fit] and [evaluate], which
    return normally. *)
Lemma nan_and_inf_weights_pass :
  (get_parameters (Lab.world Lab.inf_weights Lab.features Lab.labels)).2
  = Ok Lab.inf_weights
  /\ (fit (Lab.extern Lab.quiet) (NDArrays Lab.nan_weights)
        (Lab.world Lab.start_weights Lab.features Lab.labels)).2
     = Ok (Lab.nan_weights, 4%nat, {[ "loss" := FNum 0 ]})
  /\ (evaluate (Lab.extern Lab.quiet) (NDArrays Lab.nan_weights)
        (Lab.world Lab.start_weights Lab.features Lab.labels)).2
     = Ok (FNaN, 4%nat, {[ "accuracy" := FNaN; "f1_score" := FNum 1 ]}).
Proof. repeat split; vm_compute; reflexivity. Qed.

(** ** The metrics history *)

Section Metrics.

Context (E : Extern).

Lemma recorded_aligned mh r loss acc f1 l a f :
  mh !! "loss" = Some l -> mh !! "accuracy" = Some a -> mh !! "f1_score" = Some f ->
  length l = length a -> length a = length f ->
  recorded mh r loss acc f1 l a f !! "loss" = Some (l ++ [(r, loss)])
  /\ recorded mh r loss acc f1 l a f !! "accuracy" = Some (a ++ [(r, acc)])
  /\ recorded mh r loss acc f1 l a f !! "f1_score" = Some (f ++ [(r, f1)])
  /\ aligned (recorded mh r loss acc f1 l a f).
Proof.
  intros Hl Ha Hf Hla Haf. unfold recorded.
  assert (<["f1_score" := f ++ [(r, f1)]]>
            (<["accuracy" := a ++ [(r, acc)]]> (<["loss" := l ++ [(r, loss)]]> mh))
          !! "loss" = Some (l ++ [(r, loss)])) as H1.
  { rewrite !lookup_insert_ne by done. apply lookup_insert_eq. }
  assert (<["f1_score" := f ++ [(r, f1)]]>
            (<["accuracy" := a ++ [(r, acc)]]> (<["loss" := l ++ [(r, loss)]]> mh))
          !! "accuracy" = Some (a ++ [(r, acc)])) as H2.
  { rewrite lookup_insert_ne by done. apply lookup_insert_eq. }
  assert (<["f1_score" := f ++ [(r, f1)]]>
            (<["accuracy" := a ++ [(r, acc)]]> (<["loss" := l ++ [(r, loss)]]> mh))
          !! "f1_score" = Some (f ++ [(r, f1)])) as H3.
  { apply lookup_insert_eq. }
  do 3 (split; [done|]).
  exists (l ++ [(r, loss)]), (a ++ [(r, acc)]), (f ++ [(r, f1)]).
  do 3 (split; [done|]). rewrite !length_app. simpl. lia.
Qed.

Lemma evaluate_keeps_aligned p : respects keeps_aligned (evaluate E p).
Proof.
  intros w Hal. pose proof Hal as (l & a & f & Hl & Ha & Hf & Hla & Haf).
  destruct (evaluate_cases E p w Hal)
    as [[Hself _]|(loss & acc & f1 & l' & a' & f' & Hl' & Ha' & Hf' & Hself & _)].
  - by rewrite Hself.
  - rewrite Hself. simpl. rewrite Hl in Hl'. rewrite Ha in Ha'. rewrite Hf in Hf'.
    injection Hl' as <-. injection Ha' as <-. injection Hf' as <-.
    by apply recorded_aligned.
Qed.

Lemma fit_same_metrics p : respects same_metrics (fit E p).
Proof. intros w. hnf. by rewrite fit_self. Qed.

Hint Resolve evaluate_keeps_aligned fit_same_metrics get_parameters_same_self
  : respects.

Lemma handle_keeps_aligned r : respects keeps_aligned (handle E r).
Proof. unfold handle. respects_steps. Qed.

Lemma serve_keeps_aligned rs : respects keeps_aligned (serve E rs).
Proof.
  induction rs as [|r rest IH]; simpl; [apply respects_ret; tc_solve|].
  apply respects_bind; [tc_solve|apply handle_keeps_aligned|done].
Qed.

Lemma init_aligned X y : aligned (metrics_history (FeSEMClient_init X y)).
Proof. exists [], [], []. by repeat split. Qed.

End Metrics.



(** * Further properties of the code *)

(** ** The learning rate stays within bounds *)

(** X1. At every epoch the learning rate is positive and at most the
    initial rate 0.001. *)
Theorem lr_schedule_bounds (epoch : nat) :
  (0 < lr_schedule epoch)%Q /\ (lr_schedule epoch <= initial_lr)%Q.
Proof.
  pose proof (lr_den_pos epoch) as Hd.
  assert (0 <= inject_Z (Z.of_nat epoch))%Q as He.
  { change 0%Q with (inject_Z 0). rewrite <- Zle_Qle. lia. }
  rewrite lr_closed. unfold initial_lr, decay in *.
  set (d := (1 + (1 # 10) * inject_Z (Z.of_nat epoch))%Q) in *.
  split.
  - apply (Qlt_shift_div_l 0 (1 # 1000) d); [done|]. lra.
  - apply (Qle_shift_div_r (1 # 1000) d (1 # 1000)); [done|].
    assert (1 <= d)%Q by (unfold d; lra). nra.
Qed.

(** ** The balancer: the neighbour count and the paths through it *)

Lemma series_min_le (c : nat) (rest : list nat) :
  (foldr Nat.min c rest <= c)%nat.
Proof. induction rest as [|x rest IH]; simpl; lia. Qed.

Lemma choose_k_neighbors_bounds (m : nat) :
  (2 <= m)%nat ->
  (1 <= choose_k_neighbors (Some m) <= 3)%nat
  /\ (choose_k_neighbors (Some m) < m)%nat.
Proof. intros Hm. unfold choose_k_neighbors. lia. Qed.

Lemma balance_result (E : Extern) (X : matrix) (y : list Z) (w : World) :
  (balance_data_with_smote E X y w).2
  = if lt_two (series_min (map snd (value_counts y))) then Ok (X, y)
    else match smote_fit_resample E
                 (choose_k_neighbors (series_min (map snd (value_counts y)))) X y with
         | Ok balanced => Ok balanced
         | Raise _ => Ok (X, y)
         end.
Proof.
  unfold balance_data_with_smote, bind, try_except, call, lift, ret.
  destruct (lt_two _); [done|].
  by destruct (smote_fit_resample E _ X y) as [[Xb yb]|e].
Qed.

(** X2. The balancer never raises.  When the smallest class count m is at
    least 2 it calls the synthesis once, with k_neighbors = min(3, m - 1),
    a number from 1 to 3 and below m, and returns what the synthesis
    returns, or the input when the synthesis raises. *)
Theorem balance_calls_smote_with_valid_k (E : Extern) (X : matrix) (y : list Z)
    (w : World) (m : nat) :
  series_min (map snd (value_counts y)) = Some m ->
  (2 <= m)%nat ->
  (1 <= Nat.min 3 (m - 1) <= 3)%nat /\ (Nat.min 3 (m - 1) < m)%nat
  /\ (balance_data_with_smote E X y w).1
     = logged w [EvBalance; EvSmote (Nat.min 3 (m - 1))]
  /\ (balance_data_with_smote E X y w).2
     = match smote_fit_resample E (Nat.min 3 (m - 1)) X y with
       | Ok balanced => Ok balanced
       | Raise _ => Ok (X, y)
       end.
Proof.
  intros Hmin Hm. split; [lia|]. split; [lia|].
  assert (lt_two (Some m) = false) as Hlt by (apply Nat.ltb_ge; lia).
  split.
  - rewrite (proj1 (balance_world E X y w)), Hmin, Hlt. done.
  - rewrite balance_result, Hmin, Hlt. done.
Qed.

Lemma balance_calls_smote_with_valid_k_witness :
  (1 <= Nat.min 3 (2 - 1) <= 3)%nat /\ (Nat.min 3 (2 - 1) < 2)%nat
  /\ (balance_data_with_smote (Lab.extern Lab.session) Lab.features5 Lab.labels5
        (Lab.world [] [] [])).1
     = logged (Lab.world [] [] []) [EvBalance; EvSmote (Nat.min 3 (2 - 1))]
  /\ (balance_data_with_smote (Lab.extern Lab.session) Lab.features5 Lab.labels5
        (Lab.world [] [] [])).2
     = match smote_fit_resample (Lab.extern Lab.session) (Nat.min 3 (2 - 1))
               Lab.features5 Lab.labels5 with
       | Ok balanced => Ok balanced
       | Raise _ => Ok (Lab.features5, Lab.labels5)
       end.
Proof.
  apply (balance_calls_smote_with_valid_k (Lab.extern Lab.session) Lab.features5
           Lab.labels5 (Lab.world [] [] []) 2); [reflexivity|lia].
Defined.

(** X3. On a dataset without samples the count test does not fire (the
    minimum of no counts is NaN): the synthesis is attempted with
    k_neighbors = 3, and the empty input comes back when it raises. *)
Theorem balance_on_empty_labels (E : Extern) (X : matrix) (w : World) :
  (balance_data_with_smote E X [] w).1 = logged w [EvBalance; EvSmote 3]
  /\ (balance_data_with_smote E X [] w).2
     = match smote_fit_resample E 3 X [] with
       | Ok balanced => Ok balanced
       | Raise _ => Ok (X, [])
       end.
Proof.
  split; [by rewrite (proj1 (balance_world E X [] w))|by rewrite balance_result].
Qed.

(** ** Sample weights: never a missing key, and a mean of one *)

Section SampleWeightSums.

Context (f : Z -> Q).


Lemma class_sum_cons k c rest :
  (class_sum f ((k, c) :: rest) == f k * inject_Z (Z.of_nat c) + class_sum f rest)%Q.
Proof. reflexivity. Qed.

Lemma class_sum_count_label k tbl :
  (class_sum f (count_label k tbl) == f k + class_sum f tbl)%Q.
Proof.
  induction tbl as [|[k' c] rest IH]; cbn [count_label].
  - rewrite class_sum_cons. change (inject_Z (Z.of_nat 1)) with 1%Q. ring.
  - destruct (Z.ltb_spec k k').
    + rewrite class_sum_cons. change (inject_Z (Z.of_nat 1)) with 1%Q. ring.
    + destruct (Z.eqb_spec k k') as [->|Hne].
      * rewrite !class_sum_cons, Nat2Z.inj_succ, <- Z.add_1_r, inject_Z_plus.
        change (inject_Z 1) with 1%Q. ring.
      * rewrite !class_sum_cons, IH. ring.
Qed.

Lemma Qsum_cons q l : (Qsum (q :: l) == q + Qsum l)%Q.
Proof. reflexivity. Qed.

Lemma class_sum_np_unique y :
  (class_sum f (np_unique y) == Qsum (map f y))%Q.
Proof.
  induction y as [|k y IH]; [reflexivity|].
  cbn [np_unique foldr map]. fold (np_unique y).
  by rewrite class_sum_count_label, Qsum_cons, IH.
Qed.

End SampleWeightSums.

Lemma lookup_all_default (d : gmap Z Q) (l : list Z) (ws : list Q) :
  lookup_all d l = Ok ws -> ws = map (fun k => default 0%Q (d !! k)) l.
Proof.
  revert ws. induction l as [|k l IH]; simpl; intros ws H.
  - by injection H as <-.
  - destruct (d !! k) as [w|]; [|done].
    destruct (lookup_all d l) as [ws'|e]; [|done].
    injection H as <-. simpl. by rewrite (IH ws').
Qed.

Lemma weighted_class_total_default (d : gmap Z Q) (uc : list (Z * nat)) (t : Q) :
  weighted_class_total d uc = Ok t ->
  t = class_sum (fun k => default 0%Q (d !! k)) uc.
Proof.
  unfold weighted_class_total, class_sum. intros H.
  destruct (lookup_all d (map fst uc)) as [ws|e] eqn:Hws; [|done].
  injection H as <-. rewrite (lookup_all_default _ _ _ Hws). f_equal.
  clear. induction uc as [|[k c] rest IH]; simpl; [done|]. by rewrite IH.
Qed.

(** X4. For a non-empty label vector the per-sample weights add up to the
    number of samples: the weighting leaves the mean sample weight at 1. *)
Theorem sample_weights_sum (y : list Z) :
  y <> [] ->
  exists ws,
    sample_weights y = Ok ws /\ (Qsum ws == inject_Z (Z.of_nat (length y)))%Q.
Proof.
  intros Hy.
  destruct (sample_weights_positive y Hy) as (ws & Hws & _).
  destruct (weighted_class_total_samples y Hy) as (t & Ht & Heq).
  exists ws. split; [done|].
  rewrite (lookup_all_default _ _ _ Hws), <- class_sum_np_unique.
  by rewrite <- (weighted_class_total_default _ _ _ Ht).
Qed.

Lemma sample_weights_sum_witness :
  exists ws,
    sample_weights Lab.scenario_labels = Ok ws
    /\ (Qsum ws == inject_Z (Z.of_nat (length Lab.scenario_labels)))%Q.
Proof. apply (sample_weights_sum Lab.scenario_labels). discriminate. Defined.

(** X5. The comprehension that builds the sample weights never meets a
    missing key: every label vector gets one weight per sample.  The
    uniform six-class fallback is taken exactly when there is no label at
    all (a count of zero cannot come out of [np.unique]), and then there is
    no sample to weigh. *)
Theorem sample_weights_never_raise (y : list Z) :
  (exists ws, sample_weights y = Ok ws /\ length ws = length y)
  /\ (degenerate (np_unique y) = true <-> y = [])
  /\ class_weights [] = uniform_weights
  /\ sample_weights [] = Ok [].
Proof.
  split.
  - destruct y as [|k y]; [by exists []|].
    destruct (sample_weights_positive (k :: y)) as (ws & Hws & Hlen & _); [done|].
    by exists ws.
  - split; [|done]. rewrite degenerate_np_unique. apply bool_decide_eq_true.
Qed.

(** ** [fit]: the paths that are not the soft failure *)

Section FitPaths.

Context (E : Extern).


Lemma fit_reception_fails p w e :
  received_weights E p = Raise e
  \/ (exists gw, received_weights E p = Ok gw
                 /\ model_set_weights E (model w) gw = Raise e) ->
  exists tr,
    fit E p w
    = ({| model := model w; self := next_round (self w); calls := calls w ++ tr |},
       Raise e).
Proof.
  intros H. unfold fit. unfold bind at 1. simpl. unfold bind at 1. simpl.
  unfold bind at 1. simpl. unfold bind at 1. rewrite receive_parameters_eq.
  destruct H as [->|(gw & -> & H)]; [by eexists|]. simpl. rewrite H.
  unfold logged. simpl. rewrite <- app_assoc. by eexists.
Qed.

Lemma evaluate_reception_fails p w e :
  received_weights E p = Raise e
  \/ (exists gw, received_weights E p = Ok gw
                 /\ model_set_weights E (model w) gw = Raise e) ->
  exists tr,
    evaluate E p w
    = ({| model := model w; self := self w; calls := calls w ++ tr |}, Raise e).
Proof.
  intros H. unfold evaluate. unfold bind at 1. simpl. unfold bind at 1.
  rewrite receive_parameters_eq.
  destruct H as [->|(gw & -> & H)]; [by eexists|]. simpl. rewrite H.
  unfold logged. simpl. rewrite <- app_assoc. by eexists.
Qed.

End FitPaths.

(** X6. An error of the codec or of [model.set_weights] leaves [fit] and
    [evaluate] as that same exception.  The client's data and metrics
    history are untouched; [fit] has counted the round all the same.  When
    it is the codec that raised, [model.set_weights] was never called and
    the model holds the weights it had. *)
Theorem reception_errors_propagate (E : Extern) p (w : World) (e : exn) :
  received_weights E p = Raise e
  \/ (exists gw, received_weights E p = Ok gw
                 /\ model_set_weights E (model w) gw = Raise e) ->
  ((fit E p w).2 = Raise e /\ self (fit E p w).1 = next_round (self w))
  /\ ((evaluate E p w).2 = Raise e /\ self (evaluate E p w).1 = self w)
  /\ (received_weights E p = Raise e ->
      model (fit E p w).1 = model w /\ model (evaluate E p w).1 = model w).
Proof.
  intros H.
  destruct (fit_reception_fails E p w e H) as [tr1 ->].
  destruct (evaluate_reception_fails E p w e H) as [tr2 ->]. done.
Qed.

Lemma reception_errors_propagate_witness :
  ((fit (Lab.extern Lab.quiet) (Parameters ["x"])
      (Lab.world Lab.start_weights Lab.features Lab.labels)).2
   = Raise (ValueError "cannot decode entry")
   /\ self (fit (Lab.extern Lab.quiet) (Parameters ["x"])
              (Lab.world Lab.start_weights Lab.features Lab.labels)).1
      = next_round (self (Lab.world Lab.start_weights Lab.features Lab.labels)))
  /\ ((evaluate (Lab.extern Lab.quiet) (Parameters ["x"])
         (Lab.world Lab.start_weights Lab.features Lab.labels)).2
      = Raise (ValueError "cannot decode entry")
      /\ self (evaluate (Lab.extern Lab.quiet) (Parameters ["x"])
                 (Lab.world Lab.start_weights Lab.features Lab.labels)).1
         = self (Lab.world Lab.start_weights Lab.features Lab.labels))
  /\ (model (fit (Lab.extern Lab.quiet) (Parameters ["x"])
               (Lab.world Lab.start_weights Lab.features Lab.labels)).1
      = Lab.start_weights
      /\ model (evaluate (Lab.extern Lab.quiet) (Parameters ["x"])
                  (Lab.world Lab.start_weights Lab.features Lab.labels)).1
         = Lab.start_weights).
Proof.
  destruct (reception_errors_propagate (Lab.extern Lab.quiet) (Parameters ["x"])
              (Lab.world Lab.start_weights Lab.features Lab.labels)
              (ValueError "cannot decode entry")) as (Hfit & Hevaluate & Hmodel).
  { left. reflexivity. }
  split; [exact Hfit|]. split; [exact Hevaluate|]. apply Hmodel. reflexivity.
Defined.

(** X7. [fit] has no handler around [model.fit]: an exception of the
    training leaves [fit] as that exception.  The round is counted and the
    model holds whatever the interrupted training left. *)
Theorem fit_training_error_propagates (E : Extern) p (w : World) gw m1 ws e :
  received_weights E p = Ok gw ->
  model_set_weights E (model w) gw = Ok m1 ->
  sample_weights (y_labeled (self w)) = Ok ws ->
  (model_fit E m1 (X_labeled (self w)) (y_labeled (self w)) ws).2 = Raise e ->
  (fit E p w).2 = Raise e
  /\ model (fit E p w).1
     = (model_fit E m1 (X_labeled (self w)) (y_labeled (self w)) ws).1
  /\ self (fit E p w).1 = next_round (self w).
Proof.
  intros Hgw Hset Hws He.
  rewrite (fit_after_reception E p w gw m1 ws Hgw Hset Hws). simpl.
  by rewrite He.
Qed.

Lemma fit_training_error_propagates_witness :
  (fit Bench.failing_training (NDArrays Lab.start_weights) Bench.w0).2
  = Raise (OtherException "training failed")
  /\ model (fit Bench.failing_training (NDArrays Lab.start_weights) Bench.w0).1
     = (model_fit Bench.failing_training Lab.start_weights
          (X_labeled (self Bench.w0)) (y_labeled (self Bench.w0))
          Bench.lab_sample_weights).1
  /\ self (fit Bench.failing_training (NDArrays Lab.start_weights) Bench.w0).1
     = next_round (self Bench.w0).
Proof.
  apply (fit_training_error_propagates Bench.failing_training
           (NDArrays Lab.start_weights) Bench.w0 Lab.start_weights Lab.start_weights
           Bench.lab_sample_weights (OtherException "training failed"));
    reflexivity.
Defined.

(** X8. A round whose history has a loss series without NaN returns the
    trained weights, the number of samples and the loss of the last epoch;
    but the line that logs the round reads the last loss and the last
    accuracy, so an empty loss series makes [fit] raise [IndexError] and a
    history without an accuracy series makes it raise [KeyError], after the
    training has been done. *)
Theorem fit_reports_last_loss (E : Extern) p (w : World) gw m1 ws history losses :
  received_weights E p = Ok gw ->
  model_set_weights E (model w) gw = Ok m1 ->
  sample_weights (y_labeled (self w)) = Ok ws ->
  (model_fit E m1 (X_labeled (self w)) (y_labeled (self w)) ws).2 = Ok history ->
  history !! "loss" = Some losses ->
  existsb isnan losses = false ->
  (fit E p w).2
  = match last losses, history !! "accuracy" with
    | None, _ => Raise IndexError
    | Some _, None => Raise KeyError
    | Some final_loss, Some accuracies =>
        match last accuracies with
        | None => Raise IndexError
        | Some _ =>
            Ok ((model_fit E m1 (X_labeled (self w)) (y_labeled (self w)) ws).1,
                length (X_labeled (self w)), {[ "loss" := final_loss ]})
        end
    end.
Proof.
  intros Hgw Hset Hws Hh Hloss Hnan.
  rewrite (fit_after_reception E p w gw m1 ws Hgw Hset Hws). simpl.
  rewrite Hh.
  assert (history_invalid history = false) as ->.
  { unfold history_invalid. apply orb_false_iff. split.
    - apply bool_decide_eq_false. intros ->. by rewrite lookup_empty in Hloss.
    - rewrite Hloss. by rewrite bool_decide_eq_true_2. }
  assert (loss_has_nan history = false) as ->.
  { unfold loss_has_nan. by rewrite Hloss. }
  simpl. unfold history_last. rewrite Hloss.
  destruct (last losses) as [v|]; [|done].
  destruct (history !! "accuracy") as [accs|]; [|done].
  by destruct (last accs).
Qed.

Lemma fit_reports_last_loss_witness :
  (fit (Lab.extern Lab.quiet) (NDArrays Lab.start_weights)
     (Lab.world Lab.start_weights Lab.features Lab.labels)).2
  = match last [FNum (1 # 2)],
          ({[ "loss" := [FNum (1 # 2)]; "accuracy" := [FNum 1] ]} : History)
            !! "accuracy" with
    | None, _ => Raise IndexError
    | Some _, None => Raise KeyError
    | Some final_loss, Some accuracies =>
        match last accuracies with
        | None => Raise IndexError
        | Some _ =>
            Ok ((model_fit (Lab.extern Lab.quiet) Lab.start_weights
                   (X_labeled (self (Lab.world Lab.start_weights Lab.features Lab.labels)))
                   (y_labeled (self (Lab.world Lab.start_weights Lab.features Lab.labels)))
                   [4 # 6; 4 # 6; 4 # 6; 4 # 2]%Q).1,
                length (X_labeled (self (Lab.world Lab.start_weights Lab.features
                                           Lab.labels))),
                {[ "loss" := final_loss ]})
        end
    end.
Proof.
  apply (fit_reports_last_loss (Lab.extern Lab.quiet) (NDArrays Lab.start_weights)
           (Lab.world Lab.start_weights Lab.features Lab.labels)
           Lab.start_weights Lab.start_weights [4 # 6; 4 # 6; 4 # 6; 4 # 2]%Q
           {[ "loss" := [FNum (1 # 2)]; "accuracy" := [FNum 1] ]} [FNum (1 # 2)]);
    reflexivity.
Defined.

(** ** [evaluate]: the successful path and the failing save *)

Section EvaluatePaths.

Context (E : Extern).


Lemma evaluation_block_eq c sw w :
  evaluation_block E c sw w = (logged w [EvModelEvaluate], block_result E (model w) c sw).
Proof.
  unfold evaluation_block, block_result, bind, call, get_model, lift, ret. simpl.
  destruct (model_evaluate E _ _ _ _) as [res|e]; [|done].
  destruct (unpack3 res) as [[[loss ua] wa]|e]; [|done].
  destruct (model_predict_classes E _ _) as [pred|e]; [|done].
  destruct (f1_score E _ pred) as [f1|e]; [|done].
  by destruct (class_wise_accuracy _ pred).
Qed.

Lemma evaluate_after_block p w gw m1 ws loss acc f1 l a f :
  received_weights E p = Ok gw ->
  model_set_weights E (model w) gw = Ok m1 ->
  sample_weights (y_labeled (self w)) = Ok ws ->
  length (X_labeled (self w)) <> 0%nat ->
  length (y_labeled (self w)) <> 0%nat ->
  block_result E m1 (self w) ws = Ok (loss, acc, f1) ->
  metrics_history (self w) !! "loss" = Some l ->
  metrics_history (self w) !! "accuracy" = Some a ->
  metrics_history (self w) !! "f1_score" = Some f ->
  let mh' := recorded (metrics_history (self w)) (round (self w)) loss acc f1 l a f in
  evaluate E p w
  = ({| model := m1;
        self := {| round := round (self w); X_labeled := X_labeled (self w);
                   y_labeled := y_labeled (self w); metrics_history := mh' |};
        calls := calls w ++ [EvEvaluate; EvSetWeights; EvCompile; EvModelEvaluate;
                             EvSave] |},
     match np_save E mh' with
     | Ok _ => Ok (loss, length (X_labeled (self w)),
                   {[ "accuracy" := acc; "f1_score" := f1 ]})
     | Raise e => Raise e
     end).
Proof.
  intros Hgw Hset Hws HX Hy Hblock Hl Ha Hf mh'. subst mh'.
  unfold evaluate. unfold bind at 1. simpl. unfold bind at 1.
  rewrite receive_parameters_eq, Hgw. simpl. rewrite Hset.
  unfold bind at 1. simpl. unfold bind at 1. unfold lift at 1. rewrite Hws.
  unfold bind at 1. simpl.
  apply Nat.eqb_neq in HX. apply Nat.eqb_neq in Hy. rewrite HX, Hy. simpl.
  unfold bind at 1. unfold try_except. unfold bind at 1.
  rewrite evaluation_block_eq. simpl. rewrite Hblock. simpl.
  unfold bind at 1. rewrite append_metric_eq. simpl. rewrite Hl.
  unfold bind at 1. rewrite append_metric_eq. simpl.
  rewrite lookup_insert_ne, Ha by done.
  unfold bind at 1. rewrite append_metric_eq. simpl.
  rewrite !lookup_insert_ne, Hf by done.
  unfold bind, call, logged, get_self, lift, ret. simpl.
  rewrite <- !app_assoc. simpl.
  fold (recorded (metrics_history (self w)) (round (self w)) loss acc f1 l a f).
  by destruct (np_save E _) as [[]|e].
Qed.

End EvaluatePaths.

Lemma class_wise_accuracy_same_length (y y_pred_classes : list Z) :
  length y_pred_classes = length y ->
  exists class_acc, class_wise_accuracy y y_pred_classes = Ok class_acc.
Proof.
  intros Hlen. unfold class_wise_accuracy. rewrite Hlen.
  generalize (map Z.of_nat (seq 0 6)). generalize (∅ : gmap Z Q).
  intros d labels. revert d.
  induction labels as [|label rest IH]; intros d; simpl; [by eexists|].
  rewrite (length_map (Z.eqb label) y), Nat.eqb_refl.
  destruct (0 <? _)%nat; apply IH.
Qed.

Section EvaluateMeasured.

Context (E : Extern).

Lemma evaluate_measured p w gw m1 ws loss unweighted_acc weighted_acc
    y_pred_classes f1 l a f :
  received_weights E p = Ok gw ->
  model_set_weights E (model w) gw = Ok m1 ->
  sample_weights (y_labeled (self w)) = Ok ws ->
  length (X_labeled (self w)) <> 0%nat ->
  length (y_labeled (self w)) <> 0%nat ->
  model_evaluate E m1 (X_labeled (self w)) (y_labeled (self w)) ws
  = Ok [loss; unweighted_acc; weighted_acc] ->
  model_predict_classes E m1 (X_labeled (self w)) = Ok y_pred_classes ->
  length y_pred_classes = length (y_labeled (self w)) ->
  f1_score E (y_labeled (self w)) y_pred_classes = Ok f1 ->
  metrics_history (self w) !! "loss" = Some l ->
  metrics_history (self w) !! "accuracy" = Some a ->
  metrics_history (self w) !! "f1_score" = Some f ->
  let mh' := recorded (metrics_history (self w)) (round (self w))
               loss weighted_acc f1 l a f in
  evaluate E p w
  = ({| model := m1;
        self := {| round := round (self w); X_labeled := X_labeled (self w);
                   y_labeled := y_labeled (self w); metrics_history := mh' |};
        calls := calls w ++ [EvEvaluate; EvSetWeights; EvCompile; EvModelEvaluate;
                             EvSave] |},
     match np_save E mh' with
     | Ok _ => Ok (loss, length (X_labeled (self w)),
                   {[ "accuracy" := weighted_acc; "f1_score" := f1 ]})
     | Raise e => Raise e
     end).
Proof.
  intros Hgw Hset Hws HX Hy Hev Hpred Hlen Hf1 Hl Ha Hf.
  apply (evaluate_after_block E p w gw m1 ws); try done.
  unfold block_result. rewrite Hev. simpl. rewrite Hpred, Hf1.
  by destruct (class_wise_accuracy_same_length _ _ Hlen) as [acc ->].
Qed.

End EvaluateMeasured.

(** X9. An evaluation that goes through returns the loss, the number of
    samples, the sample-weighted accuracy (the third value of
    [model.evaluate], not the unweighted second) and the F1 score; it files
    these three values under the current round, and the model is left with
    exactly the weights it received. *)
Theorem evaluate_reports_weighted_accuracy (E : Extern) p (w : World) gw m1 ws
    loss unweighted_acc weighted_acc y_pred_classes f1 l a f :
  received_weights E p = Ok gw ->
  model_set_weights E (model w) gw = Ok m1 ->
  sample_weights (y_labeled (self w)) = Ok ws ->
  length (X_labeled (self w)) <> 0%nat ->
  length (y_labeled (self w)) <> 0%nat ->
  model_evaluate E m1 (X_labeled (self w)) (y_labeled (self w)) ws
  = Ok [loss; unweighted_acc; weighted_acc] ->
  model_predict_classes E m1 (X_labeled (self w)) = Ok y_pred_classes ->
  length y_pred_classes = length (y_labeled (self w)) ->
  f1_score E (y_labeled (self w)) y_pred_classes = Ok f1 ->
  metrics_history (self w) !! "loss" = Some l ->
  metrics_history (self w) !! "accuracy" = Some a ->
  metrics_history (self w) !! "f1_score" = Some f ->
  np_save E (recorded (metrics_history (self w)) (round (self w))
               loss weighted_acc f1 l a f) = Ok tt ->
  (evaluate E p w).2
  = Ok (loss, length (X_labeled (self w)),
        {[ "accuracy" := weighted_acc; "f1_score" := f1 ]})
  /\ model (evaluate E p w).1 = m1
  /\ metrics_history (self (evaluate E p w).1)
     = <["f1_score" := f ++ [(round (self w), f1)]]>
         (<["accuracy" := a ++ [(round (self w), weighted_acc)]]>
            (<["loss" := l ++ [(round (self w), loss)]]> (metrics_history (self w)))).
Proof.
  intros Hgw Hset Hws HX Hy Hev Hpred Hlen Hf1 Hl Ha Hf Hsave.
  rewrite (evaluate_measured E p w gw m1 ws loss unweighted_acc weighted_acc
             y_pred_classes f1 l a f) by done.
  simpl. by rewrite Hsave.
Qed.

Lemma evaluate_reports_weighted_accuracy_witness :
  (evaluate (Lab.extern Lab.quiet) (NDArrays Lab.start_weights) Bench.w0).2
  = Ok (FNum (1 # 2), length (X_labeled (self Bench.w0)),
        {[ "accuracy" := FNum 1; "f1_score" := FNum 1 ]})
  /\ model (evaluate (Lab.extern Lab.quiet) (NDArrays Lab.start_weights) Bench.w0).1
     = Lab.start_weights
  /\ metrics_history
       (self (evaluate (Lab.extern Lab.quiet) (NDArrays Lab.start_weights) Bench.w0).1)
     = <["f1_score" := [] ++ [(round (self Bench.w0), FNum 1)]]>
         (<["accuracy" := [] ++ [(round (self Bench.w0), FNum 1)]]>
            (<["loss" := [] ++ [(round (self Bench.w0), FNum (1 # 2))]]>
               (metrics_history (self Bench.w0)))).
Proof.
  apply (evaluate_reports_weighted_accuracy (Lab.extern Lab.quiet)
           (NDArrays Lab.start_weights) Bench.w0 Lab.start_weights Lab.start_weights
           Bench.lab_sample_weights (FNum (1 # 2)) (FNum 1) (FNum 1) [0; 0; 0; 0]
           (FNum 1) [] [] []); try reflexivity; discriminate.
Defined.

(** X10. Writing the metrics file comes after the records are appended and
    outside the guarded block: when [np.save] raises, [evaluate] raises that
    exception, and the three records of the round stay in the history. *)
Theorem evaluate_save_error_keeps_records (E : Extern) p (w : World) gw m1 ws
    loss unweighted_acc weighted_acc y_pred_classes f1 l a f e :
  received_weights E p = Ok gw ->
  model_set_weights E (model w) gw = Ok m1 ->
  sample_weights (y_labeled (self w)) = Ok ws ->
  length (X_labeled (self w)) <> 0%nat ->
  length (y_labeled (self w)) <> 0%nat ->
  model_evaluate E m1 (X_labeled (self w)) (y_labeled (self w)) ws
  = Ok [loss; unweighted_acc; weighted_acc] ->
  model_predict_classes E m1 (X_labeled (self w)) = Ok y_pred_classes ->
  length y_pred_classes = length (y_labeled (self w)) ->
  f1_score E (y_labeled (self w)) y_pred_classes = Ok f1 ->
  metrics_history (self w) !! "loss" = Some l ->
  metrics_history (self w) !! "accuracy" = Some a ->
  metrics_history (self w) !! "f1_score" = Some f ->
  np_save E (recorded (metrics_history (self w)) (round (self w))
               loss weighted_acc f1 l a f) = Raise e ->
  (evaluate E p w).2 = Raise e
  /\ metrics_history (self (evaluate E p w).1) !! "loss"
     = Some (l ++ [(round (self w), loss)])
  /\ metrics_history (self (evaluate E p w).1) !! "accuracy"
     = Some (a ++ [(round (self w), weighted_acc)])
  /\ metrics_history (self (evaluate E p w).1) !! "f1_score"
     = Some (f ++ [(round (self w), f1)]).
Proof.
  intros Hgw Hset Hws HX Hy Hev Hpred Hlen Hf1 Hl Ha Hf Hsave.
  rewrite (evaluate_measured E p w gw m1 ws loss unweighted_acc weighted_acc
             y_pred_classes f1 l a f) by done.
  simpl. rewrite Hsave. split; [done|]. unfold recorded.
  split; [rewrite !lookup_insert_ne by done; apply lookup_insert_eq|].
  split; [rewrite lookup_insert_ne by done|]; apply lookup_insert_eq.
Qed.

Lemma evaluate_save_error_keeps_records_witness :
  (evaluate (Lab.extern Lab.unwritable) (NDArrays Lab.start_weights) Bench.w0).2
  = Raise (OtherException "FileNotFoundError")
  /\ metrics_history
       (self (evaluate (Lab.extern Lab.unwritable) (NDArrays Lab.start_weights)
                Bench.w0).1) !! "loss"
     = Some ([] ++ [(round (self Bench.w0), FNum (1 # 2))])
  /\ metrics_history
       (self (evaluate (Lab.extern Lab.unwritable) (NDArrays Lab.start_weights)
                Bench.w0).1) !! "accuracy"
     = Some ([] ++ [(round (self Bench.w0), FNum 1)])
  /\ metrics_history
       (self (evaluate (Lab.extern Lab.unwritable) (NDArrays Lab.start_weights)
                Bench.w0).1) !! "f1_score"
     = Some ([] ++ [(round (self Bench.w0), FNum 1)]).
Proof.
  apply (evaluate_save_error_keeps_records (Lab.extern Lab.unwritable)
           (NDArrays Lab.start_weights) Bench.w0 Lab.start_weights Lab.start_weights
           Bench.lab_sample_weights (FNum (1 # 2)) (FNum 1) (FNum 1) [0; 0; 0; 0]
           (FNum 1) [] [] [] (OtherException "FileNotFoundError"));
    try reflexivity; discriminate.
Defined.

(** ** The model's weights across the handlers *)


Global Instance same_model_preorder : PreOrder same_model.
Proof. split; [done|]. intros x y z; unfold same_model; congruence. Qed.

Lemma call_same_model ev : respects same_model (call ev).
Proof. by intros w. Qed.

Lemma put_self_same_model c : respects same_model (put_self c).
Proof. by intros w. Qed.

#[export] Hint Resolve call_same_model put_self_same_model : respects.

Section ModelWeights.

Context (E : Extern).

Lemma evaluation_block_same_model c sw : respects same_model (evaluation_block E c sw).
Proof. unfold evaluation_block. respects_steps. Qed.

Lemma append_metric_same_model key v : respects same_model (append_metric key v).
Proof. unfold append_metric. respects_steps. Qed.

Hint Resolve evaluation_block_same_model append_metric_same_model : respects.

Lemma evaluate_model p w gw m1 :
  received_weights E p = Ok gw ->
  model_set_weights E (model w) gw = Ok m1 ->
  model (evaluate E p w).1 = m1.
Proof.
  intros Hgw Hset.
  destruct (sample_weights_total (y_labeled (self w))) as [ws Hws].
  destruct (evaluate E p w) as [wf rf] eqn:Hout. simpl.
  unfold evaluate in Hout. unfold bind at 1 in Hout. simpl in Hout.
  unfold bind at 1 in Hout. rewrite receive_parameters_eq, Hgw in Hout.
  simpl in Hout. rewrite Hset in Hout.
  unfold bind at 1 in Hout. simpl in Hout. unfold bind at 1 in Hout.
  unfold lift at 1 in Hout. rewrite Hws in Hout.
  unfold bind at 1 in Hout. simpl in Hout.
  match type of Hout with ?m ?w1 = _ =>
    assert (respects same_model m) as Hm; [|specialize (Hm w1)]
  end.
  { respects_steps. }
  rewrite Hout in Hm. apply Hm.
Qed.

Lemma fit_returns_model p w weights n metrics :
  (fit E p w).2 = Ok (weights, n, metrics) ->
  weights = model (fit E p w).1 /\ n = length (X_labeled (self w)).
Proof.
  intros Hok.
  destruct (received_weights E p) as [gw|e] eqn:Hgw.
  2: { destruct (fit_reception_fails E p w e) as [tr Hf]; [by left|].
       by rewrite Hf in Hok. }
  destruct (model_set_weights E (model w) gw) as [m1|e] eqn:Hset.
  2: { destruct (fit_reception_fails E p w e) as [tr Hf]; [right; eauto|].
       by rewrite Hf in Hok. }
  destruct (sample_weights_total (y_labeled (self w))) as [ws Hws].
  rewrite (fit_after_reception E p w gw m1 ws Hgw Hset Hws) in Hok |- *.
  simpl in *.
  destruct (model_fit E m1 _ _ ws).2 as [history|e]; [|done].
  destruct (history_invalid history || loss_has_nan history);
    [by injection Hok as <- <- <-|].
  destruct (history_last history "loss"); [|done].
  destruct (history_last history "accuracy"); [|done].
  by injection Hok as <- <- <-.
Qed.

End ModelWeights.

(** X11. [evaluate] never trains: once the received weights are set, they
    are the model's weights when [evaluate] ends, on every path (metrics
    returned, fallback, or a failing save). *)
Theorem evaluate_leaves_received_weights (E : Extern) p (w : World) gw m1 :
  received_weights E p = Ok gw ->
  model_set_weights E (model w) gw = Ok m1 ->
  model (evaluate E p w).1 = m1.
Proof. apply evaluate_model. Qed.

Lemma evaluate_leaves_received_weights_witness :
  model (evaluate (Lab.extern Lab.quiet) (NDArrays Lab.nan_weights) Bench.w0).1
  = Lab.nan_weights.
Proof.
  apply (evaluate_leaves_received_weights (Lab.extern Lab.quiet)
           (NDArrays Lab.nan_weights) Bench.w0 Lab.nan_weights Lab.nan_weights);
    reflexivity.
Defined.

(** X12. Whenever [fit] returns, the weights it hands back are the weights
    the model then holds and the count is the number of samples; a
    [get_parameters] that follows returns those same weights, or raises
    when they hold NaN, as after a soft failure they may. *)
Theorem fit_returns_model_weights (E : Extern) p (w : World) weights n metrics :
  (fit E p w).2 = Ok (weights, n, metrics) ->
  weights = model (fit E p w).1
  /\ n = length (X_labeled (self w))
  /\ (get_parameters (fit E p w).1).2
     = if existsb any_isnan weights
       then Raise (ValueError "Model weights contain NaN values.")
       else Ok weights.
Proof.
  intros Hok. destruct (fit_returns_model E p w weights n metrics Hok) as [Hw Hn].
  do 2 (split; [done|]). by rewrite get_parameters_eq, <- Hw.
Qed.

Lemma fit_returns_model_weights_witness :
  Lab.nan_weights
  = model (fit (Lab.extern Lab.quiet) (NDArrays Lab.nan_weights) Bench.w0).1
  /\ 4%nat = length (X_labeled (self Bench.w0))
  /\ (get_parameters
        (fit (Lab.extern Lab.quiet) (NDArrays Lab.nan_weights) Bench.w0).1).2
     = if existsb any_isnan Lab.nan_weights
       then Raise (ValueError "Model weights contain NaN values.")
       else Ok Lab.nan_weights.
Proof.
  apply (fit_returns_model_weights (Lab.extern Lab.quiet) (NDArrays Lab.nan_weights)
           Bench.w0 Lab.nan_weights 4 {[ "loss" := FNum 0 ]}).
  vm_compute. reflexivity.
Defined.

(** ** The metrics history is append-only and indexed by round *)


Global Instance extends_metrics_preorder : PreOrder extends_metrics.
Proof.
  split.
  - intros w key series H. exists []. by rewrite app_nil_r.
  - intros x y z Hxy Hyz key series H.
    destruct (Hxy key series H) as [a1 H1]. destruct (Hyz key _ H1) as [a2 H2].
    exists (a1 ++ a2). by rewrite app_assoc.
Qed.

Global Instance keeps_indexed_preorder : PreOrder keeps_indexed.
Proof. split; [intros x|intros x y z]; unfold keeps_indexed; tauto. Qed.

Lemma same_metrics_extends {A} (m : M A) :
  respects same_metrics m -> respects extends_metrics m.
Proof.
  apply respects_weaken. intros w w' H key series Hs. exists [].
  unfold same_metrics in H. by rewrite H, app_nil_r.
Qed.

#[export] Hint Resolve same_metrics_extends : respects.

Lemma StronglySorted_snoc (l : list nat) (r : nat) :
  StronglySorted le l -> Forall (fun x => (x <= r)%nat) l ->
  StronglySorted le (l ++ [r]).
Proof.
  induction 1 as [|x l Hs IH Hx]; intros Hall; simpl.
  - repeat constructor.
  - apply Forall_cons in Hall as [Hxr Hall]. constructor; [by apply IH|].
    apply Forall_app. split; [done|]. by constructor.
Qed.

Section MetricsIndex.

Context (E : Extern).

Lemma append_metric_extends key v : respects extends_metrics (append_metric key v).
Proof.
  intros w. rewrite append_metric_eq.
  destruct (metrics_history (self w) !! key) as [series|] eqn:Hkey.
  - intros key' series' H. simpl. destruct (decide (key = key')) as [<-|Hne].
    + rewrite lookup_insert_eq. rewrite Hkey in H. injection H as <-. by eexists.
    + rewrite lookup_insert_ne by done. exists []. by rewrite app_nil_r.
  - reflexivity.
Qed.

Hint Resolve append_metric_extends receive_parameters_same_self
  evaluation_block_same_self get_parameters_same_self fit_same_metrics : respects.

Lemma call_extends ev : respects extends_metrics (call ev).
Proof. intros w key series H. exists []. simpl. by rewrite app_nil_r. Qed.

Hint Resolve call_extends : respects.

Lemma evaluate_extends p : respects extends_metrics (evaluate E p).
Proof. unfold evaluate. respects_steps. Qed.

Hint Resolve evaluate_extends : respects.

Lemma handle_extends r : respects extends_metrics (handle E r).
Proof. unfold handle. respects_steps. Qed.

Lemma serve_extends rs : respects extends_metrics (serve E rs).
Proof.
  induction rs as [|r rest IH]; simpl; [apply respects_ret; tc_solve|].
  apply respects_bind; [tc_solve|apply handle_extends|done].
Qed.

Lemma fit_keeps_indexed p : respects keeps_indexed (fit E p).
Proof.
  intros w (l & a & f & Hl & Ha & Hf & Hal & Hfl & Hs & Hr).
  rewrite fit_self. exists l, a, f. simpl. do 6 (split; [done|]).
  eapply Forall_impl; [exact Hr|]. simpl. lia.
Qed.

Lemma evaluate_keeps_indexed p : respects keeps_indexed (evaluate E p).
Proof.
  intros w Hix. pose proof Hix as (l & a & f & Hl & Ha & Hf & Hal & Hfl & Hs & Hr).
  assert (aligned (metrics_history (self w))) as Hal'.
  { exists l, a, f. do 3 (split; [done|]).
    rewrite <- (length_map fst l), <- (length_map fst a), <- (length_map fst f).
    by rewrite Hal, Hfl. }
  destruct (evaluate_cases E p w Hal')
    as [[Hself _]|(loss & acc & f1 & l' & a' & f' & Hl' & Ha' & Hf' & Hself & _)].
  - by rewrite Hself.
  - rewrite Hself. rewrite Hl in Hl'. rewrite Ha in Ha'. rewrite Hf in Hf'.
    injection Hl' as <-. injection Ha' as <-. injection Hf' as <-.
    exists (l ++ [(round (self w), loss)]), (a ++ [(round (self w), acc)]),
      (f ++ [(round (self w), f1)]). simpl. unfold recorded.
    split; [rewrite !lookup_insert_ne by done; apply lookup_insert_eq|].
    split; [rewrite lookup_insert_ne by done; apply lookup_insert_eq|].
    split; [apply lookup_insert_eq|].
    rewrite !map_app, Hal, Hfl. simpl. do 2 (split; [done|]).
    split; [by apply StronglySorted_snoc|].
    apply Forall_app. split; [done|]. by constructor.
Qed.

Lemma same_self_indexed {A} (m : M A) :
  respects same_self m -> respects keeps_indexed m.
Proof. apply respects_weaken. unfold same_self, keeps_indexed. by intros w w' ->. Qed.

Hint Resolve fit_keeps_indexed evaluate_keeps_indexed same_self_indexed : respects.

Lemma handle_keeps_indexed r : respects keeps_indexed (handle E r).
Proof. unfold handle. respects_steps. Qed.

Lemma serve_keeps_indexed rs : respects keeps_indexed (serve E rs).
Proof.
  induction rs as [|r rest IH]; simpl; [apply respects_ret; tc_solve|].
  apply respects_bind; [tc_solve|apply handle_keeps_indexed|done].
Qed.

Lemma init_indexed X y : indexed_by_round (FeSEMClient_init X y).
Proof. exists [], [], []. repeat split; constructor. Qed.

End MetricsIndex.

(** X13. The metrics history is append-only: over any sequence of requests,
    whatever their outcomes, every series that was there is still there
    with its records in place, new ones only at its end. *)
Theorem metrics_history_append_only (E : Extern) (rs : list request) (w : World)
    (key : string) (series : list (nat * fval)) :
  metrics_history (self w) !! key = Some series ->
  exists added,
    metrics_history (self (serve E rs w).1) !! key = Some (series ++ added).
Proof. intros H. by apply (serve_extends E rs w). Qed.

Lemma metrics_history_append_only_witness :
  exists added,
    metrics_history
      (self (serve (Lab.extern Lab.session) (Lab.script Lab.session 0)
               (Lab.world Lab.start_weights Lab.features6 Lab.labels6)).1) !! "loss"
    = Some ([] ++ added).
Proof.
  apply (metrics_history_append_only (Lab.extern Lab.session)). reflexivity.
Defined.

(** X14. Served from a fresh client object, the history stays indexed by
    round: the three series carry the same round numbers, in
    non-decreasing order, and none exceeds the round counter. *)
Theorem metrics_history_indexed_by_round (E : Extern) (rs : list request)
    (m : WeightSet) (X : matrix) (y : list Z) (tr : list event) :
  indexed_by_round
    (self (serve E rs {| model := m; self := FeSEMClient_init X y; calls := tr |}).1).
Proof. apply (serve_keeps_indexed E rs). apply init_indexed. Qed.

(** ** [run_client]: the data checks and a connection that succeeds *)


Section Connection.

Context (E : Extern).

Lemma run_client_after_balancing X y w :
  run_client E X y w
  = match (balance_data_with_smote E X y w).2 with
    | Raise e => ((balance_data_with_smote E X y w).1, Raise e)
    | Ok (Xb, yb) =>
        let wb := (balance_data_with_smote E X y w).1 in
        if (array_size Xb =? 0)%nat
        then (wb, Raise (ValueError "zero-size array to reduction operation minimum"))
        else if existsb any_isnan Xb || existsb any_isinf Xb
        then (wb, Raise (ValueError "Input data X_dev contains NaN or Inf values."))
        else connect_loop E Xb yb (seq 0 max_retries)
               {| model := build_model E (input_dim Xb); self := self wb;
                  calls := calls wb ++ [EvBuildModel] |}
    end.
Proof.
  unfold run_client. unfold bind at 1.
  destruct (balance_data_with_smote E X y w) as [wb [[Xb yb]|e]]; [|done].
  simpl. unfold bind at 1.
  destruct (array_size Xb =? 0)%nat; [done|]. simpl. unfold bind at 1.
  destruct (existsb any_isnan Xb || existsb any_isinf Xb); [done|]. simpl.
  unfold bind at 1. simpl. unfold bind at 1. simpl. done.
Qed.

Lemma connect_loop_skips_failures X y (n : nat) : forall (start : nat) rest w,
  (start + n <= 9)%nat ->
  (forall attempt, (start <= attempt < start + n)%nat ->
     exists e, channel_ready E attempt = Raise e) ->
  connect_loop E X y (seq start n ++ rest) w
  = connect_loop E X y rest (logged w (retry_calls start n)).
Proof.
  induction n as [|n IH]; intros start rest w Hle Hfail.
  - unfold retry_calls, logged. simpl. rewrite app_nil_r. by destruct w.
  - destruct (Hfail start) as [e He]; [lia|].
    cbn [seq app]. rewrite (connect_attempt_fails E X y start _ w e He).
    assert ((start <? max_retries - 1)%nat = true) as ->
      by (apply Nat.ltb_lt; unfold max_retries; lia).
    rewrite IH; [|lia|intros a Ha; apply Hfail; lia].
    f_equal. unfold logged, retry_calls. simpl. by rewrite <- app_assoc.
Qed.

Lemma connect_attempt_succeeds X y attempt rest w w2 :
  channel_ready E attempt = Ok tt ->
  serve E (coordinator E attempt)
    {| model := model w; self := FeSEMClient_init X y;
       calls := calls w ++ [EvAttempt attempt] |}
  = (w2, Ok tt) ->
  connect_loop E X y (attempt :: rest) w = (logged w2 [EvChannelClose], Ok tt).
Proof.
  intros Hready Hserve. simpl. unfold bind at 1. unfold try_except.
  unfold bind at 1. simpl. unfold bind at 1. unfold lift at 1. rewrite Hready.
  unfold bind at 1. unfold start_numpy_client. unfold bind at 1. simpl.
  rewrite Hserve. done.
Qed.

End Connection.

Lemma retry_calls_counts (n : nat) : forall start,
  count_events is_attempt (retry_calls start n) = n
  /\ count_events is_sleep (retry_calls start n) = n.
Proof.
  unfold count_events, retry_calls.
  induction n as [|n IH]; intros start; [done|].
  simpl. destruct (IH (S start)) as [-> ->]. done.
Qed.

Lemma count_events_app p tr1 tr2 :
  count_events p (tr1 ++ tr2) = (count_events p tr1 + count_events p tr2)%nat.
Proof. unfold count_events. by rewrite List.filter_app, length_app. Qed.

(** X15. [run_client] checks the data the balancer returned before it
    builds the model: when that array is empty, or holds NaN or an
    infinity, [run_client] raises [ValueError] having called nothing but
    the balancer; no model is built and no connection is attempted. *)
Theorem run_client_rejects_corrupt_data (E : Extern) (X : matrix) (y : list Z)
    (w : World) Xb yb :
  (balance_data_with_smote E X y w).2 = Ok (Xb, yb) ->
  array_size Xb = 0%nat
  \/ existsb any_isnan Xb = true \/ existsb any_isinf Xb = true ->
  (exists msg, (run_client E X y w).2 = Raise (ValueError msg))
  /\ (run_client E X y w).1
     = logged w (EvBalance ::
                   if lt_two (series_min (map snd (value_counts y))) then []
                   else [EvSmote (choose_k_neighbors
                                    (series_min (map snd (value_counts y))))]).
Proof.
  intros Hb Hbad. rewrite run_client_after_balancing, Hb.
  rewrite (proj1 (balance_world E X y w)). simpl.
  destruct (array_size Xb =? 0)%nat eqn:Hsize; [eauto|].
  assert (existsb any_isnan Xb || existsb any_isinf Xb = true) as ->.
  { destruct Hbad as [H0|[->| ->]]; [|done|apply orb_true_r].
    apply Nat.eqb_neq in Hsize. done. }
  eauto.
Qed.

Lemma run_client_rejects_corrupt_data_witness :
  (exists msg,
     (run_client (Lab.extern Lab.quiet) [[FNum 1; FNaN]; [FNum 0; FNum 1]] [0; 1]
        (Lab.world [] [] [])).2 = Raise (ValueError msg))
  /\ (run_client (Lab.extern Lab.quiet) [[FNum 1; FNaN]; [FNum 0; FNum 1]] [0; 1]
        (Lab.world [] [] [])).1
     = logged (Lab.world [] [] [])
         (EvBalance ::
            if lt_two (series_min (map snd (value_counts [0; 1]))) then []
            else [EvSmote (choose_k_neighbors
                             (series_min (map snd (value_counts [0; 1]))))]).
Proof.
  apply (run_client_rejects_corrupt_data (Lab.extern Lab.quiet)
           [[FNum 1; FNaN]; [FNum 0; FNum 1]] [0; 1] (Lab.world [] [] [])
           [[FNum 1; FNaN]; [FNum 0; FNum 1]] [0; 1]); [reflexivity|].
  right. left. reflexivity.
Defined.

(** X16. The loop stops at the first attempt that gets through.  When the
    attempts before attempt n fail, the channel is ready at attempt n and
    the session is served to its end, there are n + 1 attempts and n
    sleeps, the channel is closed, [run_client]'s loop returns normally,
    and the round counter of the client object, built anew for this
    attempt, is the number of [fit] requests of this session. *)
Theorem connection_stops_at_first_success (E : Extern) X y (w w2 : World) (n : nat) :
  (n < max_retries)%nat ->
  (forall attempt, (attempt < n)%nat -> exists e, channel_ready E attempt = Raise e) ->
  channel_ready E n = Ok tt ->
  serve E (coordinator E n)
    {| model := model w; self := FeSEMClient_init X y;
       calls := calls w ++ retry_calls 0 n ++ [EvAttempt n] |}
  = (w2, Ok tt) ->
  connect_loop E X y (seq 0 max_retries) w = (logged w2 [EvChannelClose], Ok tt)
  /\ round (self w2) = count_fits (coordinator E n)
  /\ count_events is_attempt (retry_calls 0 n ++ [EvAttempt n]) = S n
  /\ count_events is_sleep (retry_calls 0 n ++ [EvAttempt n]) = n.
Proof.
  intros Hn Hfail Hready Hserve. unfold max_retries in Hn. split.
  - assert (seq 0 max_retries = seq 0 n ++ n :: seq (S n) (max_retries - S n)) as ->.
    { unfold max_retries.
      replace 10%nat with (n + S (10 - S n))%nat at 1 by lia.
      by rewrite seq_app. }
    rewrite connect_loop_skips_failures; [|lia|intros a Ha; apply Hfail; lia].
    apply connect_attempt_succeeds; [done|].
    unfold logged. simpl. by rewrite <- app_assoc.
  - split.
    + pose proof (proj2 (serve_round E (coordinator E n)
                    {| model := model w; self := FeSEMClient_init X y;
                       calls := calls w ++ retry_calls 0 n ++ [EvAttempt n] |})) as Hr.
      rewrite Hserve in Hr. by apply Hr.
    + rewrite !count_events_app.
      destruct (retry_calls_counts n 0) as [-> ->]. unfold count_events. simpl.
      lia.
Qed.

Lemma connection_stops_at_first_success_witness :
  connect_loop (Lab.extern Bench.late) Lab.features6 Lab.labels6
    (seq 0 max_retries) (Lab.world Lab.start_weights [] [])
  = (logged
       (serve (Lab.extern Bench.late) (Lab.script Lab.session 2)
          {| model := Lab.start_weights;
             self := FeSEMClient_init Lab.features6 Lab.labels6;
             calls := [EvAttempt 0; EvSleep 10; EvAttempt 1; EvSleep 10;
                       EvAttempt 2] |}).1 [EvChannelClose], Ok tt)
  /\ round (self (serve (Lab.extern Bench.late) (Lab.script Lab.session 2)
                    {| model := Lab.start_weights;
                       self := FeSEMClient_init Lab.features6 Lab.labels6;
                       calls := [EvAttempt 0; EvSleep 10; EvAttempt 1; EvSleep 10;
                                 EvAttempt 2] |}).1)
     = count_fits (Lab.script Lab.session 2)
  /\ count_events is_attempt (retry_calls 0 2 ++ [EvAttempt 2]) = 3%nat
  /\ count_events is_sleep (retry_calls 0 2 ++ [EvAttempt 2]) = 2%nat.
Proof.
  apply (connection_stops_at_first_success (Lab.extern Bench.late) Lab.features6
           Lab.labels6 (Lab.world Lab.start_weights [] []) _ 2).
  - unfold max_retries. lia.
  - intros [|[|attempt]] H; [eexists; reflexivity..|lia].
  - reflexivity.
  - vm_compute. reflexivity.
Defined.

(** ** The [__main__] block: which rows a device gets *)


Lemma categories_hlm (col : list string) :
  Forall hlm col ->
  categories col = cats_of (occurs "H" col) (occurs "L" col) (occurs "M" col).
Proof.
  induction 1 as [|t col Ht Hall IH]; [done|].
  cbn [categories foldr]. fold (categories col). rewrite IH.
  unfold occurs. cbn [existsb].
  destruct (existsb (String.eqb "H") col), (existsb (String.eqb "L") col),
    (existsb (String.eqb "M") col);
    destruct Ht as [->|[->| ->]]; reflexivity.
Qed.

Lemma occurs_elem_of t col : t ∈ col -> occurs t col = true.
Proof.
  intros Hin. apply existsb_exists. exists t.
  split; [by apply list_elem_of_In|apply String.eqb_refl].
Qed.

Lemma masked_map_filter {A} (p : A -> bool) (l : list A) :
  masked (map p l) l = List.filter p l.
Proof.
  unfold masked. induction l as [|x l IH]; [done|].
  cbn [map zip zip_with List.filter]. rewrite filter_cons. cbn [fst].
  destruct (p x); simpl; by rewrite <- IH.
Qed.

Lemma filter_ext_hlm (p q : sample -> bool) (rows : list sample) :
  Forall hlm (map device_type rows) ->
  (forall s, hlm (device_type s) -> p s = q s) ->
  List.filter p rows = List.filter q rows.
Proof.
  intros Hall Hpq. induction rows as [|s rows IH]; [done|].
  simpl in Hall. apply Forall_cons in Hall as [Hs Hall].
  simpl. rewrite (Hpq s Hs), IH by done. done.
Qed.

Lemma device_rows_eq (device : string) (code : Z) (df train : list sample) :
  device_map !! device = Some code ->
  device_rows device df train
  = let rows := List.filter
                  (fun s => category_code (categories (map device_type df))
                              (device_type s) =? code) train in
    Ok (map features_of rows, map failure_code rows).
Proof.
  intros H. unfold device_rows. rewrite H. cbv zeta.
  by rewrite (masked_map_filter
                (fun s => category_code (categories (map device_type df))
                            (device_type s) =? code) train).
Qed.

(** X18. The category codes follow the sorted order of the [Type] values,
    so on a table holding the three types H, L and M the codes are H = 0,
    L = 1, M = 2, while [device_map] reads L = 0, M = 1, H = 2: the client
    started for device L trains on the rows of type H, the one for M on the
    rows of type L, and the one for H on the rows of type M. *)
Theorem device_rows_follow_sorted_codes (df train : list sample) :
  Forall hlm (map device_type df) ->
  "H" ∈ map device_type df -> "L" ∈ map device_type df -> "M" ∈ map device_type df ->
  Forall hlm (map device_type train) ->
  device_rows "L" df train
  = Ok (map features_of (of_type "H" train), map failure_code (of_type "H" train))
  /\ device_rows "M" df train
     = Ok (map features_of (of_type "L" train), map failure_code (of_type "L" train))
  /\ device_rows "H" df train
     = Ok (map features_of (of_type "M" train), map failure_code (of_type "M" train)).
Proof.
  intros Hdf HH HL HM Htrain.
  assert (categories (map device_type df) = ["H"; "L"; "M"]) as Hcats.
  { rewrite (categories_hlm _ Hdf).
    by rewrite (occurs_elem_of _ _ HH), (occurs_elem_of _ _ HL), (occurs_elem_of _ _ HM). }
  rewrite (device_rows_eq "L" 0), (device_rows_eq "M" 1), (device_rows_eq "H" 2)
    by reflexivity.
  rewrite Hcats. cbv zeta.
  rewrite (filter_ext_hlm
             (fun s => category_code ["H"; "L"; "M"] (device_type s) =? 0)
             (fun s => String.eqb (device_type s) "H") train Htrain)
    by (by intros s [->|[->| ->]]).
  rewrite (filter_ext_hlm
             (fun s => category_code ["H"; "L"; "M"] (device_type s) =? 1)
             (fun s => String.eqb (device_type s) "L") train Htrain)
    by (by intros s [->|[->| ->]]).
  rewrite (filter_ext_hlm
             (fun s => category_code ["H"; "L"; "M"] (device_type s) =? 2)
             (fun s => String.eqb (device_type s) "M") train Htrain)
    by (by intros s [->|[->| ->]]).
  done.
Qed.

Lemma device_rows_follow_sorted_codes_witness :
  device_rows "L" Bench.table Bench.table
  = Ok (map features_of (of_type "H" Bench.table),
        map failure_code (of_type "H" Bench.table))
  /\ device_rows "M" Bench.table Bench.table
     = Ok (map features_of (of_type "L" Bench.table),
           map failure_code (of_type "L" Bench.table))
  /\ device_rows "H" Bench.table Bench.table
     = Ok (map features_of (of_type "M" Bench.table),
           map failure_code (of_type "M" Bench.table)).
Proof.
  apply (device_rows_follow_sorted_codes Bench.table Bench.table).
  - repeat constructor; unfold hlm; simpl; tauto.
  - apply list_elem_of_In. simpl. tauto.
  - apply list_elem_of_In. simpl. tauto.
  - apply list_elem_of_In. simpl. tauto.
  - repeat constructor; unfold hlm; simpl; tauto.
Defined.

(** ** The class-wise accuracy of [evaluate] *)


Lemma class_wise_accuracy_fold (y y_pred_classes : list Z) :
  class_wise_accuracy y y_pred_classes
  = foldl (class_acc_step y y_pred_classes) (Ok ∅) (map Z.of_nat (seq 0 6)).
Proof. reflexivity. Qed.

Lemma mask_sum_positive (label : Z) (y : list Z) :
  (0 <? length (filter (fun b => b = true) (map (Z.eqb label) y)))%nat = true
  <-> label ∈ y.
Proof.
  rewrite Nat.ltb_lt. induction y as [|k y IH]; simpl.
  - rewrite elem_of_nil. lia.
  - rewrite filter_cons, elem_of_cons.
    destruct (Z.eqb_spec label k) as [->|Hne]; simpl.
    + split; [by left|lia].
    + rewrite IH. split; [by right|]. by intros [?|?].
Qed.

Lemma class_acc_fold_raise y p e labels :
  foldl (class_acc_step y p) (Raise e) labels = Raise e.
Proof. by induction labels. Qed.

Lemma class_acc_fold_keys y p labels :
  length p = length y ->
  forall d, exists acc,
    foldl (class_acc_step y p) (Ok d) labels = Ok acc
    /\ forall k, is_Some (acc !! k) <-> is_Some (d !! k) \/ (k ∈ labels /\ k ∈ y).
Proof.
  intros Hlen. induction labels as [|label rest IH]; intros d.
  - exists d. split; [done|]. intros k. rewrite elem_of_nil. tauto.
  - cbn [foldl]. unfold class_acc_step at 2. cbv zeta.
    rewrite (length_map (Z.eqb label) y), Hlen, Nat.eqb_refl.
    destruct (0 <? _)%nat eqn:Hpos.
    + apply mask_sum_positive in Hpos.
      destruct (IH (<[label := accuracy_score (masked (map (Z.eqb label) y) y)
                                 (masked (map (Z.eqb label) y) p)]> d))
        as (acc & -> & Hkeys).
      exists acc. split; [done|]. intros k. rewrite Hkeys, elem_of_cons.
      rewrite lookup_insert_is_Some. split.
      * intros [[<-|[_ ?]]|[? ?]]; eauto.
      * intros [?|[[->|?] ?]]; eauto.
        destruct (decide (label = k)); eauto.
    + destruct (IH d) as (acc & -> & Hkeys).
      exists acc. split; [done|]. intros k. rewrite Hkeys, elem_of_cons.
      split; [intros [?|[? ?]]; eauto|].
      intros [?|[[->|?] Hy]]; eauto.
      apply mask_sum_positive in Hy. by rewrite Hy in Hpos.
Qed.

Lemma class_acc_fold_mismatch y p labels label :
  length p <> length y -> label ∈ labels -> label ∈ y ->
  forall d, foldl (class_acc_step y p) (Ok d) labels = Raise IndexError.
Proof.
  intros Hlen Hin Hy. induction labels as [|l rest IH]; intros d.
  - by apply elem_of_nil in Hin.
  - cbn [foldl]. unfold class_acc_step at 2. cbv zeta.
    rewrite (length_map (Z.eqb l) y).
    assert ((length p =? length y)%nat = false) as -> by by apply Nat.eqb_neq.
    destruct (0 <? _)%nat eqn:Hpos; [apply class_acc_fold_raise|].
    apply elem_of_cons in Hin as [->|Hin]; [|by apply IH].
    apply mask_sum_positive in Hy. by rewrite Hy in Hpos.
Qed.

Lemma range6_elem (k : Z) : k ∈ map Z.of_nat (seq 0 6) <-> 0 <= k < 6.
Proof.
  rewrite list_elem_of_fmap. split.
  - intros (n & -> & Hn). apply list_elem_of_In, in_seq in Hn. lia.
  - intros Hk. exists (Z.to_nat k). split; [lia|].
    apply list_elem_of_In, in_seq. lia.
Qed.

(** X17. The class-wise accuracy is computed for exactly the labels 0 to 5
    that occur in the data; a label outside that range is passed over.
    When the predictions are one per sample the loop does not raise; when
    they are not and a label from 0 to 5 occurs, indexing the predictions
    raises [IndexError]. *)
Theorem class_wise_accuracy_labels (y y_pred_classes : list Z) :
  (length y_pred_classes = length y ->
   exists class_acc,
     class_wise_accuracy y y_pred_classes = Ok class_acc
     /\ forall label, is_Some (class_acc !! label) <-> 0 <= label < 6 /\ label ∈ y)
  /\ (length y_pred_classes <> length y ->
      (exists label, 0 <= label < 6 /\ label ∈ y) ->
      class_wise_accuracy y y_pred_classes = Raise IndexError).
Proof.
  rewrite class_wise_accuracy_fold. split.
  - intros Hlen.
    destruct (class_acc_fold_keys y y_pred_classes (map Z.of_nat (seq 0 6)) Hlen ∅)
      as (acc & Hacc & Hkeys).
    exists acc. split; [done|]. intros label.
    rewrite Hkeys, range6_elem, lookup_empty. split; [|tauto].
    intros [[? [=]]|?]; done.
  - intros Hlen (label & Hrange & Hy).
    apply (class_acc_fold_mismatch y y_pred_classes _ label); [done| |done].
    by apply range6_elem.
Qed.

Lemma class_wise_accuracy_labels_witness :
  exists class_acc,
    class_wise_accuracy Lab.labels [0; 0; 1; 1] = Ok class_acc
    /\ forall label, is_Some (class_acc !! label) <-> 0 <= label < 6 /\ label ∈ Lab.labels.
Proof.
  apply (proj1 (class_wise_accuracy_labels Lab.labels [0; 0; 1; 1])). reflexivity.
Defined.
